(** * ncdns server: construction and start-up of the DNS front-end

    A shallow embedding of [server/server.go] (package [server]):
    the [Config] record and its normalisation inside [New], the key
    loader [loadKey], the construction function [New] with the sockets
    it binds, and the start-up protocol of [Start] / [runListener] /
    [doRunListener] with its [sync.WaitGroup] readiness barrier.

    Go strings are byte strings and are modelled by [string]; Go's
    [(value, error)] results are modelled by sums [error + A]; a nil
    pointer or nil interface is [None]. *)

From Stdlib Require Import Ascii String ZArith Lia.
From stdpp Require Import base list strings.

Open Scope string_scope.
Open Scope list_scope.

(** ** Library functions on strings *)

Module strings.

(** Go's [strings.Split(s, sep)] for a one-byte separator: the pieces
    of [s] between consecutive occurrences of [sep]; the result always
    has one more element than there are separators. *)
Fixpoint Split (s : string) (sep : ascii) : list string :=
  match s with
  | EmptyString => [EmptyString]
  | String c rest =>
      if Ascii.eqb c sep then EmptyString :: Split rest sep
      else match Split rest sep with
           | tok :: toks => String c tok :: toks
           | [] => [String c EmptyString]
           end
  end.

(** Go's [strings.Join(elems, sep)] for a one-byte separator. *)
Fixpoint Join (elems : list string) (sep : ascii) : string :=
  match elems with
  | [] => EmptyString
  | [e] => e
  | e :: rest => e +:+ String sep (Join rest sep)
  end.

(** Does the byte [c] occur in [s]? *)
Fixpoint ContainsByte (s : string) (c : ascii) : bool :=
  match s with
  | EmptyString => false
  | String d rest => Ascii.eqb d c || ContainsByte rest c
  end.

(** Go's [strings.HasSuffix(s, ".")]. *)
Fixpoint HasDotSuffix (s : string) : bool :=
  match s with
  | EmptyString => false
  | String c EmptyString => Ascii.eqb c "."%char
  | String _ rest => HasDotSuffix rest
  end.

End strings.

Module dns.

(** Modelled from the spec: [dns.Fqdn] of the imported DNS library is
    not part of the repository sources; the specification describes it
    as putting a name in trailing-dot form, the dot being added if and
    only if it is absent. *)
Definition Fqdn (s : string) : string :=
  if strings.HasDotSuffix s then s else s +:+ ".".

(** The public key record of the DNS library ([dns.DNSKEY]). *)
Record DNSKEY := mkDNSKEY {
  Name : string;
  Flags : N;
  Protocol : N;
  Algorithm : N;
  PublicKeyData : string
}.

(** A parsed resource record ([dns.RR]): either a DNSKEY record or a
    record of another type, identified by its numeric type. *)
Inductive RR :=
| RR_DNSKEY (k : DNSKEY)
| RR_Other (rrtype : N) (text : string).

End dns.

(** ** Basic types *)

(** Go's [error] interface values, identified with their message. *)
Definition error := string.

(** Go's [net.IP], a byte slice. *)
Definition IP := list N.

(** An open file: the name it was opened under and its contents. *)
Record File := mkFile { fileName : string; fileData : string }.

(** Opaque private key material ([crypto.PrivateKey]). *)
Definition PrivateKey := string.

(** The credential retrieval closure stored in [namecoin.Conn.GetAuth].
    [cookieRetriever path] builds a closure that captures [path]. *)
Inductive GetAuthFunc :=
| cookieRetriever (path : string).

Module namecoin.
Record Conn := mkConn {
  Username : string;
  Password : string;
  Server : string;
  GetAuth : option GetAuthFunc
}.
End namecoin.

(** ** The configuration record *)

Record Config := mkConfig {
  Bind : string;
  PublicKey : string;
  PrivateKeyPath : string;       (* field [PrivateKey] *)
  ZonePublicKey : string;
  ZonePrivateKey : string;
  NamecoinRPCUsername : string;
  NamecoinRPCPassword : string;
  NamecoinRPCAddress : string;
  NamecoinRPCCookiePath : string;
  CacheMaxEntries : Z;
  SelfName : string;
  SelfIP : string;
  HTTPListenAddr : string;
  CanonicalSuffix : string;
  CanonicalNameservers : string;
  canonicalNameservers : list string;   (* unexported, normalised *)
  Hostmaster : string;
  VanityIPs : string;
  vanityIPs : list IP;                  (* unexported, normalised *)
  TplSet : string;
  TplPath : string;
  ConfigDir : string
}.

Definition set_canonicalNameservers (c : Config) (l : list string) : Config :=
  mkConfig (Bind c) (PublicKey c) (PrivateKeyPath c) (ZonePublicKey c)
    (ZonePrivateKey c) (NamecoinRPCUsername c) (NamecoinRPCPassword c)
    (NamecoinRPCAddress c) (NamecoinRPCCookiePath c) (CacheMaxEntries c)
    (SelfName c) (SelfIP c) (HTTPListenAddr c) (CanonicalSuffix c)
    (CanonicalNameservers c) l (Hostmaster c) (VanityIPs c) (vanityIPs c)
    (TplSet c) (TplPath c) (ConfigDir c).

Definition set_vanityIPs (c : Config) (l : list IP) : Config :=
  mkConfig (Bind c) (PublicKey c) (PrivateKeyPath c) (ZonePublicKey c)
    (ZonePrivateKey c) (NamecoinRPCUsername c) (NamecoinRPCPassword c)
    (NamecoinRPCAddress c) (NamecoinRPCCookiePath c) (CacheMaxEntries c)
    (SelfName c) (SelfIP c) (HTTPListenAddr c) (CanonicalSuffix c)
    (CanonicalNameservers c) (canonicalNameservers c) (Hostmaster c)
    (VanityIPs c) l (TplSet c) (TplPath c) (ConfigDir c).

(** ** Normalisation of the comma-separated lists (in [New]) *)

(** One iteration of

      for i := range s.cfg.canonicalNameservers {
        s.cfg.canonicalNameservers[i] = dns.Fqdn(s.cfg.canonicalNameservers[i])
      }

    The index always lies in range here; out of range Go would panic,
    and the model leaves the slice as it is. *)
Definition fqdnAt (ns : list string) (i : nat) : list string :=
  match ns !! i with
  | Some n => <[i := dns.Fqdn n]> ns
  | None => ns
  end.

Definition fqdnLoop (ns : list string) : list string :=
  foldl fqdnAt ns (seq 0 (length ns)).

(** Lines 87-92 of [New]. *)
Definition normalizeCanonicalNameservers (c : Config) : Config :=
  if String.eqb (CanonicalNameservers c) "" then c
  else set_canonicalNameservers c
         (fqdnLoop (strings.Split (CanonicalNameservers c) ","%char)).

(** The body of

      for _, ips := range vanityIPs {
        ip := net.ParseIP(ips)
        if ip == nil { return nil, fmt.Errorf("Couldn't parse IP: %s", ips) }
        s.cfg.vanityIPs = append(s.cfg.vanityIPs, ip)
      }

    run over the tokens [toks], with [acc] the current value of
    [s.cfg.vanityIPs].  [inl] is the early return with its error. *)
Fixpoint vanityLoop (ParseIP : string -> option IP)
    (toks : list string) (acc : list IP) : error + list IP :=
  match toks with
  | [] => inr acc
  | ips :: rest =>
      match ParseIP ips with
      | None => inl ("Couldn't parse IP: " +:+ ips)
      | Some ip => vanityLoop ParseIP rest (acc ++ [ip])
      end
  end.

(** Lines 94-103 of [New]. *)
Definition normalizeVanityIPs (ParseIP : string -> option IP) (c : Config)
    : error + Config :=
  if String.eqb (VanityIPs c) "" then inr c
  else match vanityLoop ParseIP (strings.Split (VanityIPs c) ","%char)
               (vanityIPs c) with
       | inl e => inl e
       | inr ips => inr (set_vanityIPs c ips)
       end.

(** ** Collaborators and the server record *)

(** [backend.Config], as assembled by [New]. *)
Record BackendConfig := mkBackendConfig {
  bc_NamecoinConn : namecoin.Conn;
  bc_CacheMaxEntries : Z;
  bc_SelfIP : string;
  bc_Hostmaster : string;
  bc_CanonicalNameservers : list string;
  bc_VanityIPs : list IP
}.

(** Handles of the collaborators' opaque objects. *)
Definition Backend := N.
Definition Engine := N.

(** [madns.EngineConfig]. *)
Record EngineConfig := mkEngineConfig {
  ec_Backend : Backend;
  ec_VersionString : string;
  KSK : option dns.DNSKEY;
  KSKPrivate : option PrivateKey;
  ZSK : option dns.DNSKEY;
  ZSKPrivate : option PrivateKey
}.

(** Resolved addresses and bound sockets of package [net]. *)
Definition TCPAddr := string.
Definition UDPAddr := string.
Record TCPListener := mkTCPListener { tcpLocal : TCPAddr }.
Record UDPConn := mkUDPConn { udpLocal : UDPAddr }.

Inductive Socket :=
| TCPSocket (l : TCPListener)
| UDPSocket (c : UDPConn).

(** [dns.ServeMux]: the registered patterns with their handlers. *)
Definition ServeMux := list (string * Engine).

(** The closure installed as [NotifyStartedFunc]: it calls
    [s.wgStart.Done()]. *)
Inductive NotifyFunc := wgStartDone.

(** [dns.Server], as filled in by [runListener]. *)
Record DnsServer := mkDnsServer {
  ds_Addr : string;
  ds_Net : string;
  ds_Handler : option ServeMux;
  ds_NotifyStartedFunc : option NotifyFunc;
  ds_Listener : option TCPListener;
  ds_PacketConn : option UDPConn
}.

Record Server := mkServer {
  cfg : Config;
  engine : option Engine;
  namecoinConn : namecoin.Conn;
  mux : option ServeMux;
  udpServer : option DnsServer;
  udpConn : option UDPConn;
  tcpServer : option DnsServer;
  tcpListener : option TCPListener;
  wgStart : Z                      (* counter of the sync.WaitGroup *)
}.

Definition set_cfg (s : Server) (c : Config) : Server :=
  mkServer c (engine s) (namecoinConn s) (mux s) (udpServer s) (udpConn s)
    (tcpServer s) (tcpListener s) (wgStart s).
Definition set_GetAuth (s : Server) (g : option GetAuthFunc) : Server :=
  mkServer (cfg s) (engine s)
    (namecoin.mkConn (namecoin.Username (namecoinConn s))
       (namecoin.Password (namecoinConn s))
       (namecoin.Server (namecoinConn s)) g)
    (mux s) (udpServer s) (udpConn s) (tcpServer s) (tcpListener s)
    (wgStart s).
Definition set_engine (s : Server) (e : option Engine) : Server :=
  mkServer (cfg s) e (namecoinConn s) (mux s) (udpServer s) (udpConn s)
    (tcpServer s) (tcpListener s) (wgStart s).
Definition set_mux (s : Server) (m : option ServeMux) : Server :=
  mkServer (cfg s) (engine s) (namecoinConn s) m (udpServer s) (udpConn s)
    (tcpServer s) (tcpListener s) (wgStart s).
Definition set_udpServer (s : Server) (d : option DnsServer) : Server :=
  mkServer (cfg s) (engine s) (namecoinConn s) (mux s) d (udpConn s)
    (tcpServer s) (tcpListener s) (wgStart s).
Definition set_udpConn (s : Server) (u : option UDPConn) : Server :=
  mkServer (cfg s) (engine s) (namecoinConn s) (mux s) (udpServer s) u
    (tcpServer s) (tcpListener s) (wgStart s).
Definition set_tcpServer (s : Server) (d : option DnsServer) : Server :=
  mkServer (cfg s) (engine s) (namecoinConn s) (mux s) (udpServer s)
    (udpConn s) d (tcpListener s) (wgStart s).
Definition set_tcpListener (s : Server) (l : option TCPListener) : Server :=
  mkServer (cfg s) (engine s) (namecoinConn s) (mux s) (udpServer s)
    (udpConn s) (tcpServer s) l (wgStart s).
Definition set_wgStart (s : Server) (n : Z) : Server :=
  mkServer (cfg s) (engine s) (namecoinConn s) (mux s) (udpServer s)
    (udpConn s) (tcpServer s) (tcpListener s) n.

(** ** The world outside the source file

    Everything [New] and [loadKey] consult that is not defined in
    [server.go]: functions of the Go library and of the imported
    packages, the file system, the network stack, and the collaborators
    [backend.New], [madns.NewEngine] and [webStart]. *)
Record World := mkWorld {
  buildinfo_VersionSummary : string -> string -> string;
  filepath_Join : string -> string -> string;
  net_ParseIP : string -> option IP;
  os_Open : string -> error + File;
  dns_ReadRR : File -> string -> error + option dns.RR;
  ReadPrivateKey : dns.DNSKEY -> File -> string -> error + PrivateKey;
  backend_New : BackendConfig -> error + Backend;
  madns_NewEngine : EngineConfig -> error + Engine;
  net_ResolveTCPAddr : string -> string -> error + TCPAddr;
  net_ListenTCP : string -> TCPAddr -> error + TCPListener;
  net_ResolveUDPAddr : string -> string -> error + UDPAddr;
  net_ListenUDP : string -> UDPAddr -> error + UDPConn;
  webStart : string -> Server -> option error
}.

(** ** Process state and the monad of function bodies *)

(** Calls that leave the package, in the order they were made (the most
    recent first). *)
Inductive Call :=
| Call_os_Open (name : string)
| Call_backend_New (bc : BackendConfig)
| Call_madns_NewEngine (ecfg : EngineConfig)
| Call_net_ResolveTCPAddr (addr : string)
| Call_net_ListenTCP (a : TCPAddr)
| Call_net_ResolveUDPAddr (addr : string)
| Call_net_ListenUDP (a : UDPAddr)
| Call_webStart (addr : string).

(** The state of the process that a construction attempt can touch:
    the package-level variable [ncdnsVersion], the files and sockets
    that are open, and the log of outgoing calls. *)
Record Proc := mkProc {
  ncdnsVersion : string;
  openFiles : list File;
  sockets : list Socket;
  calls : list Call
}.

(** One statement of a function body with result type [R]: it goes on
    with a value, returns from the function, or ends the process
    ([log.Fatale] on a non-nil error). *)
Inductive Step (R A : Type) :=
| Next (a : A)
| Return (r : R)
| Fatal (e : error).
Arguments Next {R A} a.
Arguments Return {R A} r.
Arguments Fatal {R A} e.

Definition Fn (R A : Type) := Proc -> Proc * Step R A.

Definition ret {R A} (a : A) : Fn R A := fun p => (p, Next a).
Definition return_ {R A} (r : R) : Fn R A := fun p => (p, Return r).
Definition bind {R A B} (m : Fn R A) (k : A -> Fn R B) : Fn R B :=
  fun p =>
    match m p with
    | (p', Next a) => k a p'
    | (p', Return r) => (p', Return r)
    | (p', Fatal e) => (p', Fatal e)
    end.

Notation "x <- m ; k" := (bind m (fun x => k))
  (at level 20, m at level 100, k at level 200, only parsing).
Notation "m ;;; k" := (bind m (fun _ => k))
  (at level 20, k at level 200, only parsing).

(** What a caller sees of a call: the returned value, or the end of the
    process. *)
Inductive Outcome (R : Type) :=
| Returned (r : R)
| Exited (e : error).
Arguments Returned {R} r.
Arguments Exited {R} e.

Definition run {R} (body : Fn R R) (p : Proc) : Proc * Outcome R :=
  match body p with
  | (p', Next r) => (p', Returned r)
  | (p', Return r) => (p', Returned r)
  | (p', Fatal e) => (p', Exited e)
  end.

(** A call of one function of the package from the body of another. *)
Definition callFn {R R'} (body : Fn R R) : Fn R' R :=
  fun p =>
    match run body p with
    | (p', Returned r) => (p', Next r)
    | (p', Exited e) => (p', Fatal e)
    end.

Definition logCall {R} (c : Call) : Fn R unit :=
  fun p => (mkProc (ncdnsVersion p) (openFiles p) (sockets p) (c :: calls p),
            Next tt).

(** [log.Fatale(err)] of the logging library: nothing when [err] is nil,
    otherwise the error is logged and the process exits. *)
Definition Fatale {R} (err : option error) : Fn R unit :=
  fun p => match err with
           | None => (p, Next tt)
           | Some e => (p, Fatal e)
           end.

(** [os.Open]: on success the file stays open until it is closed. *)
Definition Open {R} (w : World) (name : string) : Fn R (error + File) :=
  logCall (Call_os_Open name) ;;;
  fun p => match os_Open w name with
           | inl e => (p, Next (inl e))
           | inr f => (mkProc (ncdnsVersion p) (f :: openFiles p)
                         (sockets p) (calls p), Next (inr f))
           end.

Definition ListenTCP {R} (w : World) (network : string) (a : TCPAddr)
    : Fn R (error + TCPListener) :=
  logCall (Call_net_ListenTCP a) ;;;
  fun p => match net_ListenTCP w network a with
           | inl e => (p, Next (inl e))
           | inr l => (mkProc (ncdnsVersion p) (openFiles p)
                         (TCPSocket l :: sockets p) (calls p), Next (inr l))
           end.

Definition ListenUDP {R} (w : World) (network : string) (a : UDPAddr)
    : Fn R (error + UDPConn) :=
  logCall (Call_net_ListenUDP a) ;;;
  fun p => match net_ListenUDP w network a with
           | inl e => (p, Next (inl e))
           | inr u => (mkProc (ncdnsVersion p) (openFiles p)
                         (UDPSocket u :: sockets p) (calls p), Next (inr u))
           end.

Definition setVersion {R} (v : string) : Fn R unit :=
  fun p => (mkProc v (openFiles p) (sockets p) (calls p), Next tt).

Definition getVersion {R} : Fn R string :=
  fun p => (p, Next (ncdnsVersion p)).

(** The idiom [v, err := f(...); if err != nil { return ... }]. *)
Definition orReturn {R A} (r : error + A) (onErr : error -> R) : Fn R A :=
  match r with
  | inl e => return_ (onErr e)
  | inr a => ret a
  end.

(** ** [Config.cpath] and [Server.loadKey] *)

Definition cpath (w : World) (c : Config) (s : string) : string :=
  filepath_Join w (ConfigDir c) s.

(** The results [(k, privatek, err)] of [loadKey]. *)
Definition KeyResult : Type :=
  option dns.DNSKEY * option PrivateKey * option error.

Definition loadKey (w : World) (s : Server) (fn privateFn : string)
    : Fn KeyResult KeyResult :=
  let fn := cpath w (cfg s) fn in
  let privateFn := cpath w (cfg s) privateFn in
  o <- Open w fn ;
  f <- orReturn o (fun err => (None, None, Some err)) ;
  rr <- orReturn (dns_ReadRR w f fn) (fun err => (None, None, Some err)) ;
  (* k, ok := rr.( *dns.DNSKEY ) *)
  k <- match rr with
       | Some (dns.RR_DNSKEY k) => ret k
       | _ => return_
                (None, None,
                 Some "Loaded record from key file, but it wasn't a DNSKEY")
       end ;
  o' <- Open w privateFn ;
  privatef <- orReturn o' (fun err => (Some k, None, Some err)) ;
  let r := ReadPrivateKey w k privatef privateFn in
  let privatek := match r with inr pk => Some pk | inl _ => None end in
  let err := match r with inl e => Some e | inr _ => None end in
  Fatale err ;;;
  ret (Some k, privatek, err).

(** ** [New] *)

(** The results [(s, err)] of [New]. *)
Definition NewResult : Type := option Server * option error.

Definition set_KSK (e : EngineConfig) (k : option dns.DNSKEY)
    (p : option PrivateKey) : EngineConfig :=
  mkEngineConfig (ec_Backend e) (ec_VersionString e) k p (ZSK e)
    (ZSKPrivate e).
Definition set_ZSK (e : EngineConfig) (k : option dns.DNSKEY)
    (p : option PrivateKey) : EngineConfig :=
  mkEngineConfig (ec_Backend e) (ec_VersionString e) (KSK e)
    (KSKPrivate e) k p.

(** Lines 123-128 of [New]: the key-signing key. *)
Definition setupKSK (w : World) (c : Config) (s : Server)
    (ecfg : EngineConfig) : Fn NewResult EngineConfig :=
  if String.eqb (PublicKey c) "" then ret ecfg
  else
    r <- callFn (loadKey w s (PublicKey c) (PrivateKeyPath c)) ;
    let '(k, privatek, err) := r in
    let ecfg := set_KSK ecfg k privatek in
    match err with
    | Some e => return_ (None, Some e)
    | None => ret ecfg
    end.

(** Lines 130-135 of [New]: the zone-signing key. *)
Definition setupZSK (w : World) (c : Config) (s : Server)
    (ecfg : EngineConfig) : Fn NewResult EngineConfig :=
  if String.eqb (ZonePublicKey c) "" then ret ecfg
  else
    r <- callFn (loadKey w s (ZonePublicKey c) (ZonePrivateKey c)) ;
    let '(k, privatek, err) := r in
    let ecfg := set_ZSK ecfg k privatek in
    match err with
    | Some e => return_ (None, Some e)
    | None => ret ecfg
    end.

(** Lines 137-139 of [New]. *)
Definition checkKeys (ecfg : EngineConfig) : Fn NewResult unit :=
  match KSK ecfg, ZSK ecfg with
  | Some _, None => return_ (None, Some "Must specify ZSK if KSK is specified")
  | _, _ => ret tt
  end.

(** Lines 149-167 of [New]: the two sockets.  A bare [return] hands
    back the server built so far together with the error. *)
Definition bindSockets (w : World) (s : Server) : Fn NewResult Server :=
  logCall (Call_net_ResolveTCPAddr (Bind (cfg s))) ;;;
  tcpAddr <- orReturn (net_ResolveTCPAddr w "tcp" (Bind (cfg s)))
               (fun err => (Some s, Some err)) ;
  l <- ListenTCP w "tcp" tcpAddr ;
  l <- orReturn l (fun err => (Some (set_tcpListener s None), Some err)) ;
  let s := set_tcpListener s (Some l) in
  logCall (Call_net_ResolveUDPAddr (Bind (cfg s))) ;;;
  udpAddr <- orReturn (net_ResolveUDPAddr w "udp" (Bind (cfg s)))
               (fun err => (Some s, Some err)) ;
  u <- ListenUDP w "udp" udpAddr ;
  u <- orReturn u (fun err => (Some (set_udpConn s None), Some err)) ;
  ret (set_udpConn s (Some u)).

(** Lines 74-85 of [New]: the server record and the choice between
    static credentials and the cookie file. *)
Definition newServer (c : Config) : Server :=
  let s := mkServer c None
             (namecoin.mkConn (NamecoinRPCUsername c)
                (NamecoinRPCPassword c) (NamecoinRPCAddress c) None)
             None None None None None 0 in
  if String.eqb (NamecoinRPCCookiePath (cfg s)) "" then s
  else set_GetAuth s
         (Some (cookieRetriever (NamecoinRPCCookiePath (cfg s)))).

(** Lines 105-112 of [New]: the argument of [backend.New]. *)
Definition backendConfig (c : Config) (s : Server) : BackendConfig :=
  mkBackendConfig (namecoinConn s) (CacheMaxEntries c) (SelfIP c)
    (Hostmaster c) (canonicalNameservers (cfg s)) (vanityIPs (cfg s)).

Definition New (w : World) (c : Config) : Fn NewResult NewResult :=
  setVersion
    (buildinfo_VersionSummary w "github.com/namecoin/ncdns" "ncdns") ;;;
  let s := newServer c in
  let s := set_cfg s (normalizeCanonicalNameservers (cfg s)) in
  c' <- orReturn (normalizeVanityIPs (net_ParseIP w) (cfg s))
          (fun err => (None, Some err)) ;
  let s := set_cfg s c' in
  let bc := backendConfig c s in
  logCall (Call_backend_New bc) ;;;
  b <- orReturn (backend_New w bc) (fun err => (Some s, Some err)) ;
  v <- getVersion ;
  let ecfg := mkEngineConfig b v None None None None in
  (* key setup *)
  ecfg <- setupKSK w c s ecfg ;
  ecfg <- setupZSK w c s ecfg ;
  checkKeys ecfg ;;;
  logCall (Call_madns_NewEngine ecfg) ;;;
  e <- orReturn (madns_NewEngine w ecfg)
         (fun err => (Some (set_engine s None), Some err)) ;
  let s := set_engine s (Some e) in
  (* s.mux = dns.NewServeMux(); s.mux.Handle(".", s.engine) *)
  let s := set_mux s (Some [(".", e)]) in
  s <- bindSockets w s ;
  if String.eqb (HTTPListenAddr c) "" then ret (Some s, None)
  else
    logCall (Call_webStart (HTTPListenAddr c)) ;;;
    match webStart w (HTTPListenAddr c) s with
    | Some err => return_ (Some s, Some err)
    | None => ret (Some s, None)
    end.

(** ** Vocabulary of the properties *)

(** [tok] parses to the address [ip]. *)
Definition parsesTo (P : string -> option IP) (tok : string) (ip : IP) : Prop :=
  P tok = Some ip.

(** Calls that resolve an address or bind a socket. *)
Definition isNetCall (c : Call) : bool :=
  match c with
  | Call_net_ResolveTCPAddr _ | Call_net_ListenTCP _
  | Call_net_ResolveUDPAddr _ | Call_net_ListenUDP _ => true
  | _ => false
  end.

(** The ways in which the public-key file [name] fails to yield a
    DNSKEY record, with the error of each: it cannot be opened, it does
    not parse as a resource record, or what it holds is not a DNSKEY
    record. *)
Inductive PublicKeyFailure (w : World) (name : string) : error -> Prop :=
| PKF_unreadable e :
    os_Open w name = inl e -> PublicKeyFailure w name e
| PKF_malformed f e :
    os_Open w name = inr f -> dns_ReadRR w f name = inl e ->
    PublicKeyFailure w name e
| PKF_not_a_key f rr :
    os_Open w name = inr f -> dns_ReadRR w f name = inr rr ->
    (forall k, rr <> Some (dns.RR_DNSKEY k)) ->
    PublicKeyFailure w name
      "Loaded record from key file, but it wasn't a DNSKEY".

(** The key pair under [pub] and [priv], relative to the base directory
    of [c], loads: both files open and parse. *)
Definition KeyLoads (w : World) (c : Config) (pub priv : string)
    (k : dns.DNSKEY) (pk : PrivateKey) : Prop :=
  exists f pf,
    os_Open w (cpath w c pub) = inr f
    /\ dns_ReadRR w f (cpath w c pub) = inr (Some (dns.RR_DNSKEY k))
    /\ os_Open w (cpath w c priv) = inr pf
    /\ ReadPrivateKey w k pf (cpath w c priv) = inr pk.

(** [New] gets as far as the key setup: the vanity IPs parse and
    [backend.New] accepts the configuration. *)
Definition ReachesKeySetup (w : World) (c : Config) : Prop :=
  exists c' b,
    normalizeVanityIPs (net_ParseIP w) (normalizeCanonicalNameservers c)
    = inr c'
    /\ backend_New w (backendConfig c (set_cfg (newServer c) c')) = inr b.

(** ** [Start], [runListener] and [doRunListener]

    [Start] runs on the calling thread; every [runListener] spawns one
    goroutine running [doRunListener].  The threads are interleaved by
    a scheduler; the state of the whole is a [Sys]. *)

(** Where the calling thread stands in [Start]. *)
Inductive StartPC :=
| AtAdd                              (* s.wgStart.Add(2) *)
| AtRunUDP                           (* s.udpServer = s.runListener("udp") *)
| AtRunTCP                           (* s.tcpServer = s.runListener("tcp") *)
| AtWait                             (* s.wgStart.Wait() *)
| AtLogInfo                          (* log.Info("Listeners started") *)
| StartReturned (err : option error) (* return nil *)
| StartPanicked.                     (* panic("unreachable") *)

(** Where a goroutine stands in [doRunListener]:

      err := ds.ActivateAndServe()
      log.Fatale(err)                                              *)
Inductive LoopPC :=
| Activating                 (* in ActivateAndServe, not yet accepting *)
| Notifying                  (* accepting; NotifyStartedFunc being called *)
| Serving                    (* in ActivateAndServe, serving requests *)
| AtFatale (err : option error)   (* ActivateAndServe returned [err] *)
| LoopReturned.              (* doRunListener returned *)

Record Goroutine := mkGoroutine { g_ds : DnsServer; g_pc : LoopPC }.

(** What has happened so far, the most recent event first. *)
Inductive Event :=
| EvAdd (n : Z)
| EvSpawn (net : string)
| EvAccepting (net : string)
| EvDone (net : string)
| EvWaitReturned
| EvStartReturned (err : option error)
| EvExit (e : error).

Record Sys := mkSys {
  srv : Server;
  mainPC : StartPC;
  goroutines : list Goroutine;      (* in the order they were spawned *)
  exited : option error;            (* the process has ended *)
  infoLog : list string;
  events : list Event
}.

Definition initSys (s : Server) : Sys := mkSys s AtAdd [] None [] [].

(** [runListener]: builds the [dns.Server] and spawns
    [go s.doRunListener(ds)]; [None] is the [panic("unreachable")]. *)
Definition runListener (st : Sys) (net : string) : option (Sys * DnsServer) :=
  let s := srv st in
  let ds := mkDnsServer (Bind (cfg s)) net (mux s) (Some wgStartDone)
              None None in
  let ds' :=
    if String.eqb net "tcp" then
      Some (mkDnsServer (ds_Addr ds) (ds_Net ds) (ds_Handler ds)
              (ds_NotifyStartedFunc ds) (tcpListener s) (ds_PacketConn ds))
    else if String.eqb net "udp" then
      Some (mkDnsServer (ds_Addr ds) (ds_Net ds) (ds_Handler ds)
              (ds_NotifyStartedFunc ds) (ds_Listener ds) (udpConn s))
    else None in
  match ds' with
  | Some ds =>
      Some (mkSys s (mainPC st)
              (goroutines st ++ [mkGoroutine ds Activating])
              (exited st) (infoLog st) (EvSpawn net :: events st), ds)
  | None => None
  end.

(** One step of the calling thread.  [None]: the thread cannot move
    (it is blocked in [Wait], or [Start] is over). *)
Definition stepMain (st : Sys) : option Sys :=
  match mainPC st with
  | AtAdd =>
      Some (mkSys (set_wgStart (srv st) (wgStart (srv st) + 2)) AtRunUDP
              (goroutines st) (exited st) (infoLog st)
              (EvAdd 2 :: events st))
  | AtRunUDP =>
      match runListener st "udp" with
      | Some (st', ds) =>
          Some (mkSys (set_udpServer (srv st') (Some ds)) AtRunTCP
                  (goroutines st') (exited st') (infoLog st') (events st'))
      | None =>
          Some (mkSys (srv st) StartPanicked (goroutines st)
                  (Some "unreachable") (infoLog st)
                  (EvExit "unreachable" :: events st))
      end
  | AtRunTCP =>
      match runListener st "tcp" with
      | Some (st', ds) =>
          Some (mkSys (set_tcpServer (srv st') (Some ds)) AtWait
                  (goroutines st') (exited st') (infoLog st') (events st'))
      | None =>
          Some (mkSys (srv st) StartPanicked (goroutines st)
                  (Some "unreachable") (infoLog st)
                  (EvExit "unreachable" :: events st))
      end
  | AtWait =>
      if Z.eqb (wgStart (srv st)) 0 then
        Some (mkSys (srv st) AtLogInfo (goroutines st) (exited st)
                (infoLog st) (EvWaitReturned :: events st))
      else None
  | AtLogInfo =>
      Some (mkSys (srv st) (StartReturned None) (goroutines st) (exited st)
              ("Listeners started" :: infoLog st)
              (EvStartReturned None :: events st))
  | StartReturned _ => None
  | StartPanicked => None
  end.

(** What [ds.ActivateAndServe()] of the DNS library does on its own:
    it finds its transport accepting and calls [NotifyStartedFunc], or
    it returns. *)
Inductive LibMove :=
| LibAccepting
| LibReturn (err : option error).

Definition setPC (st : Sys) (i : nat) (g : Goroutine) (pc : LoopPC)
    (evs : list Event) : Sys :=
  mkSys (srv st) (mainPC st)
    (<[i := mkGoroutine (g_ds g) pc]> (goroutines st))
    (exited st) (infoLog st) (evs ++ events st).

(** Modelled from the spec: [ActivateAndServe] belongs to the imported
    DNS library; each loop signals upon the protocol stack confirming
    that it is actively accepting, once, and a failure of the transport
    makes the call return an error. *)
Definition stepLib (i : nat) (m : LibMove) (st : Sys) : option Sys :=
  match goroutines st !! i with
  | None => None
  | Some g =>
      match g_pc g, m with
      | Activating, LibAccepting =>
          Some (setPC st i g Notifying [EvAccepting (ds_Net (g_ds g))])
      | Activating, LibReturn err => Some (setPC st i g (AtFatale err) [])
      | Serving, LibReturn err => Some (setPC st i g (AtFatale err) [])
      | _, _ => None
      end
  end.

(** One step of goroutine [i] in the code of this package: the body
    of [NotifyStartedFunc], which is [s.wgStart.Done()], or
    [log.Fatale(err)]. *)
Definition stepLoop (i : nat) (st : Sys) : option Sys :=
  match goroutines st !! i with
  | None => None
  | Some g =>
      match g_pc g with
      | Notifying =>
          match ds_NotifyStartedFunc (g_ds g) with
          | Some wgStartDone =>
              if Z.ltb (wgStart (srv st) - 1) 0 then
                (* panic: negative WaitGroup counter *)
                Some (mkSys (srv st) (mainPC st) (goroutines st)
                        (Some "sync: negative WaitGroup counter")
                        (infoLog st)
                        (EvExit "sync: negative WaitGroup counter"
                           :: events st))
              else
                let st' := setPC st i g Serving [EvDone (ds_Net (g_ds g))] in
                Some (mkSys (set_wgStart (srv st') (wgStart (srv st') - 1))
                        (mainPC st') (goroutines st') (exited st')
                        (infoLog st') (events st'))
          | None => Some (setPC st i g Serving [])
          end
      | AtFatale (Some e) =>
          Some (mkSys (srv st) (mainPC st) (goroutines st) (Some e)
                  (infoLog st) (EvExit e :: events st))
      | AtFatale None => Some (setPC st i g LoopReturned [])
      | _ => None
      end
  end.

(** A scheduler decision. *)
Inductive Action :=
| ActMain
| ActLib (i : nat) (m : LibMove)
| ActLoop (i : nat).

(** Nothing moves once the process has exited. *)
Definition step (a : Action) (st : Sys) : option Sys :=
  match exited st with
  | Some _ => None
  | None =>
      match a with
      | ActMain => stepMain st
      | ActLib i m => stepLib i m st
      | ActLoop i => stepLoop i st
      end
  end.

(** Running a schedule; a decision that is not enabled is skipped. *)
Fixpoint exec (sched : list Action) (st : Sys) : Sys :=
  match sched with
  | [] => st
  | a :: rest =>
      match step a st with
      | Some st' => exec rest st'
      | None => exec rest st
      end
  end.

(** [Start] on server [s] under schedule [sched]. *)
Definition Start (s : Server) (sched : list Action) : Sys :=
  exec sched (initSys s).

(** How often loop [net] has signalled the barrier. *)
Definition isDone (net : string) (e : Event) : bool :=
  match e with
  | EvDone n => String.eqb n net
  | _ => false
  end.

Definition signals (net : string) (evs : list Event) : nat :=
  length (List.filter (isDone net) evs).

(** ** A concrete world for the examples

    A small file system under [/etc/ncdns], a resolver and a network
    stack that accept every address unless told otherwise, and
    collaborators that succeed. *)
Module Demo.

Definition kskText : string := "bit. IN DNSKEY 257 3 8 AwEAAcKsk".
Definition zskText : string := "bit. IN DNSKEY 256 3 8 AwEAAcZsk".
Definition privText : string := "Private-key-format: v1.3".

Definition kskRecord : dns.DNSKEY := dns.mkDNSKEY "bit." 257 3 8 "AwEAAcKsk".
Definition zskRecord : dns.DNSKEY := dns.mkDNSKEY "bit." 256 3 8 "AwEAAcZsk".

Definition files : list (string * string) :=
  [ ("/etc/ncdns/ksk.key", kskText);
    ("/etc/ncdns/ksk.private", privText);
    ("/etc/ncdns/zsk.key", zskText);
    ("/etc/ncdns/zsk.private", privText);
    ("/etc/ncdns/address.key", "bit. IN A 127.0.0.1");
    ("/etc/ncdns/garbled.key", "bit. IN DNSKEY");
    ("/etc/ncdns/garbled.private", "not a private key") ].

Fixpoint openIn (fs : list (string * string)) (name : string)
    : error + File :=
  match fs with
  | [] => inl ("open " +:+ name +:+ ": no such file or directory")
  | (n, d) :: rest =>
      if String.eqb n name then inr (mkFile n d) else openIn rest name
  end.

Definition readRR (f : File) (file : string) : error + option dns.RR :=
  if String.eqb (fileData f) kskText then inr (Some (dns.RR_DNSKEY kskRecord))
  else if String.eqb (fileData f) zskText then
    inr (Some (dns.RR_DNSKEY zskRecord))
  else if String.eqb (fileData f) "bit. IN A 127.0.0.1" then
    inr (Some (dns.RR_Other 1 (fileData f)))
  else if String.eqb (fileData f) "" then inr None
  else inl ("dns: bad record in " +:+ file).

Definition readPrivateKey (k : dns.DNSKEY) (f : File) (file : string)
    : error + PrivateKey :=
  if String.eqb (fileData f) privText then inr (fileData f)
  else inl ("dns: bad private key in " +:+ file).

(** Agrees with [filepath.Join] on two non-empty elements in clean
    form, the second one relative. *)
Definition join (dir s : string) : string := dir +:+ "/" +:+ s.

Definition parseIP (s : string) : option IP :=
  if String.eqb s "1.2.3.4" then
    Some [0;0;0;0;0;0;0;0;0;0;255;255;1;2;3;4]%N
  else if String.eqb s "::1" then
    Some [0;0;0;0;0;0;0;0;0;0;0;0;0;0;0;1]%N
  else None.

(** [udpInUse]: the UDP port is taken by another process.
    [webFails]: the web frontend cannot start. *)
Definition world (udpInUse webFails : bool) : World :=
  mkWorld
    (fun _ name => name +:+ " (devel)")
    join
    parseIP
    (openIn files)
    readRR
    readPrivateKey
    (fun _ => inr 1%N)
    (fun _ => inr 1%N)
    (fun _ addr => inr addr)
    (fun _ a => inr (mkTCPListener a))
    (fun _ addr => inr addr)
    (fun _ a => if udpInUse
                then inl ("listen udp " +:+ a +:+
                          ": bind: address already in use")
                else inr (mkUDPConn a))
    (fun addr _ => if webFails
                   then Some ("listen tcp " +:+ addr +:+
                              ": bind: address already in use")
                   else None).

(** The default configuration (the [default:] tags of [Config]),
    with [/etc/ncdns] as base directory. *)
Definition config : Config :=
  mkConfig ":53" "" "" "" "" "" "" "127.0.0.1:8336" "" 100 ""
    "127.127.127.127" "" "bit" "" [] "" "" [] "std" "" "/etc/ncdns".

Definition withKeys (c : Config) (pub priv zpub zpriv : string) : Config :=
  mkConfig (Bind c) pub priv zpub zpriv (NamecoinRPCUsername c)
    (NamecoinRPCPassword c) (NamecoinRPCAddress c)
    (NamecoinRPCCookiePath c) (CacheMaxEntries c) (SelfName c) (SelfIP c)
    (HTTPListenAddr c) (CanonicalSuffix c) (CanonicalNameservers c)
    (canonicalNameservers c) (Hostmaster c) (VanityIPs c) (vanityIPs c)
    (TplSet c) (TplPath c) (ConfigDir c).

Definition withLists (c : Config) (nameservers ips : string) : Config :=
  mkConfig (Bind c) (PublicKey c) (PrivateKeyPath c) (ZonePublicKey c)
    (ZonePrivateKey c) (NamecoinRPCUsername c) (NamecoinRPCPassword c)
    (NamecoinRPCAddress c) (NamecoinRPCCookiePath c) (CacheMaxEntries c)
    (SelfName c) (SelfIP c) (HTTPListenAddr c) (CanonicalSuffix c)
    nameservers (canonicalNameservers c) (Hostmaster c) ips (vanityIPs c)
    (TplSet c) (TplPath c) (ConfigDir c).

Definition withCookie (c : Config) (cookie : string) : Config :=
  mkConfig (Bind c) (PublicKey c) (PrivateKeyPath c) (ZonePublicKey c)
    (ZonePrivateKey c) (NamecoinRPCUsername c) (NamecoinRPCPassword c)
    (NamecoinRPCAddress c) cookie (CacheMaxEntries c)
    (SelfName c) (SelfIP c) (HTTPListenAddr c) (CanonicalSuffix c)
    (CanonicalNameservers c) (canonicalNameservers c) (Hostmaster c)
    (VanityIPs c) (vanityIPs c) (TplSet c) (TplPath c) (ConfigDir c).

Definition withHTTP (c : Config) (addr : string) : Config :=
  mkConfig (Bind c) (PublicKey c) (PrivateKeyPath c) (ZonePublicKey c)
    (ZonePrivateKey c) (NamecoinRPCUsername c) (NamecoinRPCPassword c)
    (NamecoinRPCAddress c) (NamecoinRPCCookiePath c) (CacheMaxEntries c)
    (SelfName c) (SelfIP c) addr (CanonicalSuffix c)
    (CanonicalNameservers c) (canonicalNameservers c) (Hostmaster c)
    (VanityIPs c) (vanityIPs c) (TplSet c) (TplPath c) (ConfigDir c).

(** A fresh process: nothing open, nothing called. *)
Definition fresh : Proc := mkProc "" [] [] [].

(** The server that [New] builds from the default configuration. *)
Definition server : Server :=
  mkServer config (Some 1%N)
    (namecoin.mkConn "" "" "127.0.0.1:8336" None)
    (Some [(".", 1%N)]) None (Some (mkUDPConn ":53")) None
    (Some (mkTCPListener ":53")) 0.

(** A schedule on which both loops come up and [Start] returns. *)
Definition goodSchedule : list Action :=
  [ ActMain; ActMain; ActLib 0 LibAccepting; ActMain; ActMain;
    ActLoop 0; ActLib 1 LibAccepting; ActMain; ActLoop 1;
    ActMain; ActMain ].

End Demo.

(** ** Invariants of [Start] *)

(** Loop [net], run by goroutine [g], agrees with the events so far:
    it carries the [wgStart.Done] callback, it has not signalled before
    its transport accepts, and it has signalled once when it serves. *)
Definition loopOK (net : string) (g : Goroutine) (evs : list Event) : Prop :=
  ds_Net (g_ds g) = net
  /\ ds_NotifyStartedFunc (g_ds g) = Some wgStartDone
  /\ match g_pc g with
     | Activating => signals net evs = 0
     | Notifying => signals net evs = 0 /\ In (EvAccepting net) evs
     | Serving => signals net evs = 1
     | AtFatale _ | LoopReturned => signals net evs <= 1
     end.

Definition twoLoops (st : Sys) : Prop :=
  exists gu gt,
    goroutines st = [gu; gt]
    /\ loopOK "udp" gu (events st) /\ loopOK "tcp" gt (events st).

(** The goroutines that exist at each point of [Start]. *)
Definition shape (st : Sys) : Prop :=
  match mainPC st with
  | AtAdd | AtRunUDP =>
      goroutines st = []
      /\ signals "udp" (events st) = 0 /\ signals "tcp" (events st) = 0
  | AtRunTCP =>
      exists gu, goroutines st = [gu]
                 /\ loopOK "udp" gu (events st)
                 /\ signals "tcp" (events st) = 0
  | AtWait => twoLoops st
  | AtLogInfo | StartReturned _ =>
      twoLoops st
      /\ signals "udp" (events st) = 1 /\ signals "tcp" (events st) = 1
  | StartPanicked => False
  end.

(** The barrier counts the signals still missing. *)
Definition counted (st : Sys) : Prop :=
  wgStart (srv st)
  = ((match mainPC st with AtAdd => 0 | _ => 2 end)
     - Z.of_nat (signals "udp" (events st))
     - Z.of_nat (signals "tcp" (events st)))%Z.

(** The order of events: a loop signals after its transport accepts,
    and [Start] returns after both loops have signalled. *)
Definition ordered (evs : list Event) : Prop :=
  (forall net l1 l2,
     evs = l1 ++ EvDone net :: l2 -> In (EvAccepting net) l2)
  /\ (forall r l1 l2,
        evs = l1 ++ EvStartReturned r :: l2 ->
        In (EvDone "udp") l2 /\ In (EvDone "tcp") l2).

Definition StartInv (st : Sys) : Prop :=
  shape st /\ counted st /\ ordered (events st).


(** ** Vocabulary of the further properties *)

(** How often the byte [c] occurs in [s]. *)
Fixpoint CountByte (s : string) (c : ascii) : nat :=
  match s with
  | EmptyString => 0
  | String d rest => (if Ascii.eqb d c then 1 else 0) + CountByte rest c
  end.

(** The files behind the [os.Open] calls of a log that succeeded, the
    most recent first. *)
Fixpoint openedBy (w : World) (cs : list Call) : list File :=
  match cs with
  | [] => []
  | Call_os_Open name :: rest =>
      match os_Open w name with
      | inr f => f :: openedBy w rest
      | inl _ => openedBy w rest
      end
  | _ :: rest => openedBy w rest
  end.

Definition isWebCall (c : Call) : bool :=
  match c with
  | Call_webStart _ => true
  | _ => false
  end.

Definition isEngineCall (c : Call) : bool :=
  match c with
  | Call_madns_NewEngine _ => true
  | _ => false
  end.

(** The [dns.Server] values [runListener] is to build on server [s]:
    the UDP one serves the packet socket, the TCP one the listener,
    both under the bind address and the request router of [s]. *)
Definition udpDs (s : Server) : DnsServer :=
  mkDnsServer (Bind (cfg s)) "udp" (mux s) (Some wgStartDone) None
    (udpConn s).
Definition tcpDs (s : Server) : DnsServer :=
  mkDnsServer (Bind (cfg s)) "tcp" (mux s) (Some wgStartDone)
    (tcpListener s) None.

(** [Start] on [s] has wired up what it has spawned so far: the
    sockets and the router of the server are untouched, the goroutines
    run the expected [dns.Server] values in the order UDP, TCP, and the
    server records them. *)
Definition wired (s : Server) (st : Sys) : Prop :=
  cfg (srv st) = cfg s /\ mux (srv st) = mux s
  /\ tcpListener (srv st) = tcpListener s /\ udpConn (srv st) = udpConn s
  /\ match mainPC st with
     | AtAdd | AtRunUDP =>
         g_ds <$> goroutines st = []
         /\ udpServer (srv st) = udpServer s
         /\ tcpServer (srv st) = tcpServer s
     | AtRunTCP =>
         g_ds <$> goroutines st = [udpDs s]
         /\ udpServer (srv st) = Some (udpDs s)
         /\ tcpServer (srv st) = tcpServer s
     | AtWait | AtLogInfo | StartReturned _ =>
         g_ds <$> goroutines st = [udpDs s; tcpDs s]
         /\ udpServer (srv st) = Some (udpDs s)
         /\ tcpServer (srv st) = Some (tcpDs s)
     | StartPanicked => False
     end.

(** The process has not exited, or it has exited with the error that
    some serve loop's [ActivateAndServe] returned. *)
Definition exitCause (st : Sys) : Prop :=
  match exited st with
  | None => True
  | Some e =>
      exists i g, goroutines st !! i = Some g /\ g_pc g = AtFatale (Some e)
  end.

(** The loop is still inside [ActivateAndServe]. *)
Definition running (pc : LoopPC) : bool :=
  match pc with
  | Activating | Notifying | Serving => true
  | AtFatale _ | LoopReturned => false
  end.

(** A continuation on which the calling thread spawns what is still to
    be spawned and both transports come up. *)
Definition completion : list Action :=
  [ ActMain; ActMain; ActMain;
    ActLib 0 LibAccepting; ActLoop 0;
    ActLib 1 LibAccepting; ActLoop 1;
    ActMain; ActMain ].

(** The place of a call in the course of [New]. *)
Definition stage (c : Call) : nat :=
  match c with
  | Call_backend_New _ => 0
  | Call_os_Open _ => 1
  | Call_madns_NewEngine _ => 2
  | Call_net_ResolveTCPAddr _ => 3
  | Call_net_ListenTCP _ => 4
  | Call_net_ResolveUDPAddr _ => 5
  | Call_net_ListenUDP _ => 6
  | Call_webStart _ => 7
  end.

Definition isOpenCall (c : Call) : bool :=
  match c with
  | Call_os_Open _ => true
  | _ => false
  end.

(** A log, the most recent call first, runs through the stages in
    their order: every call belongs to a later stage than the call
    before it, key files apart, of which several are opened in a
    row. *)
Fixpoint inOrder (cs : list Call) : bool :=
  match cs with
  | later :: (earlier :: _) as rest =>
      (Nat.ltb (stage earlier) (stage later)
       || (isOpenCall earlier && isOpenCall later))
      && inOrder rest
  | _ => true
  end.

(** * Properties *)

(** ** Splitting and joining *)

Lemma Split_nonempty (s : string) (sep : ascii) : strings.Split s sep <> [].
Proof.
  destruct s as [|c rest]; simpl; [discriminate|].
  destruct (Ascii.eqb c sep); [discriminate|].
  destruct (strings.Split rest sep); discriminate.
Qed.

(** Joining the pieces with the separator gives the string back. *)
Lemma Join_Split (s : string) (sep : ascii) :
  strings.Join (strings.Split s sep) sep = s.
Proof.
  induction s as [|c rest IH]; [reflexivity|].
  simpl. destruct (Ascii.eqb_spec c sep) as [->|Hne].
  - pose proof (Split_nonempty rest sep) as Hnil.
    destruct (strings.Split rest sep) as [|t ts]; [contradiction|].
    change (strings.Join (EmptyString :: t :: ts) sep)
      with (String sep (strings.Join (t :: ts) sep)).
    now rewrite IH.
  - pose proof (Split_nonempty rest sep) as Hnil.
    destruct (strings.Split rest sep) as [|t ts]; [contradiction|].
    destruct ts as [|t' ts]; simpl in *; subst rest; reflexivity.
Qed.

(** No piece contains the separator. *)
Lemma Split_no_sep (s : string) (sep : ascii) :
  Forall (fun tok => strings.ContainsByte tok sep = false)
         (strings.Split s sep).
Proof.
  induction s as [|c rest IH]; simpl.
  - repeat constructor.
  - destruct (Ascii.eqb c sep) eqn:Hc.
    + constructor; [reflexivity|assumption].
    + destruct (strings.Split rest sep) as [|t ts].
      * repeat constructor. simpl. now rewrite Hc.
      * inversion IH as [|? ? Ht Hts]; subst.
        constructor; [simpl; now rewrite Hc|assumption].
Qed.

(** ** The in-place qualification loop *)

Lemma fqdnLoop_prefix (done rest : list string) :
  foldl fqdnAt ((dns.Fqdn <$> done) ++ rest)
        (seq (length done) (length rest))
  = dns.Fqdn <$> (done ++ rest).
Proof.
  revert done. induction rest as [|x rest IH]; intros done.
  - simpl. now rewrite !app_nil_r.
  - simpl. unfold fqdnAt at 2.
    rewrite list_lookup_middle by now rewrite length_fmap.
    replace (length done) with (length (dns.Fqdn <$> done) + 0) at 1
      by (rewrite length_fmap; lia).
    rewrite insert_app_r. simpl.
    specialize (IH (done ++ [x])).
    rewrite fmap_app, length_app in IH. simpl in IH.
    rewrite <- app_assoc in IH. simpl in IH.
    replace (length done + 1) with (S (length done)) in IH by lia.
    rewrite IH. now rewrite <- app_assoc.
Qed.

Lemma fqdnLoop_map (ns : list string) : fqdnLoop ns = dns.Fqdn <$> ns.
Proof. exact (fqdnLoop_prefix [] ns). Qed.

Example split_two_names :
  fqdnLoop (strings.Split "a.bit,b.bit" ","%char) = ["a.bit."; "b.bit."].
Proof. reflexivity. Qed.

Example split_keeps_empty_pieces :
  strings.Split "a,,b," ","%char = ["a"; ""; "b"; ""].
Proof. reflexivity. Qed.

(** ** Case analysis of a run of [New] or [loadKey]

    [explore H] walks through the body behind [H : run ... = ...]: every
    consultation of the world is split into its possible answers, the
    innermost first, and the paths that contradict [H] are closed. *)

Ltac unfold_fn H :=
  cbv beta iota zeta delta
    [New newServer backendConfig
     run bind ret return_ orReturn setVersion getVersion logCall
     setupKSK setupZSK checkKeys bindSockets callFn loadKey Open
     ListenTCP ListenUDP Fatale
     cfg engine namecoinConn mux udpServer udpConn tcpServer tcpListener
     wgStart set_cfg set_GetAuth set_engine set_mux set_udpServer
     set_udpConn set_tcpServer set_tcpListener set_wgStart
     ncdnsVersion openFiles sockets calls
     KSK ZSK KSKPrivate ZSKPrivate ec_Backend ec_VersionString
     set_KSK set_ZSK] in H.

Ltac split_innermost H :=
  match type of H with
  | context [match ?x with _ => _ end] =>
      lazymatch x with
      | context [match _ with _ => _ end] => fail
      | _ => let E := fresh "E" in destruct x eqn:E
      end
  end.

Ltac explore H :=
  unfold_fn H;
  repeat (split_innermost H; unfold_fn H; try discriminate H).

(** ** Canonical nameservers *)

Lemma Fqdn_unfold (tok : string) :
  dns.Fqdn tok = if strings.HasDotSuffix tok then tok else tok +:+ ".".
Proof. reflexivity. Qed.

(** A name in the form [dns.Fqdn] gives it ends in a dot. *)
Lemma HasDotSuffix_app_dot (s : string) : strings.HasDotSuffix (s +:+ ".") = true.
Proof.
  induction s as [|c rest IH]; [reflexivity|].
  simpl. destruct (rest +:+ ".") eqn:E; [|exact IH].
  destruct rest; discriminate.
Qed.

Lemma Fqdn_qualified (s : string) : strings.HasDotSuffix (dns.Fqdn s) = true.
Proof.
  unfold dns.Fqdn. destruct (strings.HasDotSuffix s) eqn:E; [exact E|].
  apply HasDotSuffix_app_dot.
Qed.

(** The vanity-IP step leaves the canonical nameservers alone. *)
Lemma normalizeVanityIPs_fields (P : string -> option IP) (c c' : Config) :
  normalizeVanityIPs P c = inr c' ->
  canonicalNameservers c' = canonicalNameservers c.
Proof.
  unfold normalizeVanityIPs.
  destruct (String.eqb (VanityIPs c) ""); [now intros [= ->]|].
  destruct (vanityLoop _ _ _); [discriminate|now intros [= <-]].
Qed.

(** The server that [New] hands back carries the normalised
    configuration. *)
Lemma New_server_cfg (w : World) (c : Config) (p p' : Proc) (s : Server)
    (err : option error) :
  run (New w c) p = (p', Returned (Some s, err)) ->
  normalizeVanityIPs (net_ParseIP w) (normalizeCanonicalNameservers c)
  = inr (cfg s).
Proof.
  intros H. explore H.
  all: inversion H; subst; clear H; simpl; reflexivity.
Qed.

(** What [New] passes to [backend.New] is the normalised configuration. *)
Lemma New_backend_config (w : World) (c : Config) (p p' : Proc)
    (r : Outcome NewResult) (bc : BackendConfig) :
  run (New w c) p = (p', r) ->
  In (Call_backend_New bc) (calls p') ->
  In (Call_backend_New bc) (calls p) \/
  exists c', normalizeVanityIPs (net_ParseIP w)
               (normalizeCanonicalNameservers c) = inr c'
             /\ bc_CanonicalNameservers bc = canonicalNameservers c'
             /\ bc_VanityIPs bc = vanityIPs c'
             /\ namecoin.GetAuth (bc_NamecoinConn bc)
                = if String.eqb (NamecoinRPCCookiePath c) "" then None
                  else Some (cookieRetriever (NamecoinRPCCookiePath c)).
Proof.
  intros H Hin. explore H.
  all: inversion H; subst; clear H; simpl in Hin.
  all: repeat match goal with
         | Hin : _ \/ _ |- _ => destruct Hin as [Hin|Hin]
         end.
  all: try discriminate Hin.
  all: try (left; exact Hin).
  all: right; inversion Hin; subst; eexists; repeat split.
Qed.

(** C6. Canonical-nameserver normalisation: for a configuration whose
    unexported list is still nil, a non-empty [CanonicalNameservers]
    string is split on commas and every piece gets a trailing dot
    appended if and only if it lacks one; the empty string yields the
    empty list.  The list is the one stored in the server that [New]
    returns and the one [New] passes to [backend.New]. *)
Theorem canonical_nameservers_normalized (w : World) (c : Config) :
  canonicalNameservers c = [] ->
  let qualify := fun tok : string =>
    if strings.HasDotSuffix tok then tok else tok +:+ "." in
  let expected :=
    if String.eqb (CanonicalNameservers c) "" then []
    else qualify <$> strings.Split (CanonicalNameservers c) ","%char in
  canonicalNameservers (normalizeCanonicalNameservers c) = expected
  /\ (forall p p' s err,
        run (New w c) p = (p', Returned (Some s, err)) ->
        canonicalNameservers (cfg s) = expected)
  /\ (forall p p' r bc,
        run (New w c) p = (p', r) ->
        In (Call_backend_New bc) (calls p') ->
        ~ In (Call_backend_New bc) (calls p) ->
        bc_CanonicalNameservers bc = expected).
Proof.
  intros Hraw qualify expected.
  assert (Hstage : canonicalNameservers (normalizeCanonicalNameservers c)
                   = expected).
  { unfold normalizeCanonicalNameservers, expected.
    destruct (String.eqb (CanonicalNameservers c) ""); [exact Hraw|].
    simpl. apply fqdnLoop_map. }
  split; [exact Hstage|]. split.
  - intros p p' s err H. apply New_server_cfg in H.
    apply normalizeVanityIPs_fields in H. now rewrite H.
  - intros p p' r bc H Hin Hnew.
    destruct (New_backend_config _ _ _ _ _ _ H Hin) as [Hold|(c' & Hc' & Hns & _)].
    + contradiction.
    + apply normalizeVanityIPs_fields in Hc'. now rewrite Hns, Hc'.
Qed.

Lemma canonical_nameservers_normalized_witness :
  let c := Demo.withLists Demo.config "a.bit,b.bit." "" in
  canonicalNameservers c = []
  /\ canonicalNameservers (normalizeCanonicalNameservers c)
     = ["a.bit."; "b.bit."].
Proof.
  split; [reflexivity|].
  exact (proj1 (canonical_nameservers_normalized (Demo.world false false)
                  (Demo.withLists Demo.config "a.bit,b.bit." "") eq_refl)).
Defined.

Example canonical_nameservers_empty :
  canonicalNameservers (normalizeCanonicalNameservers Demo.config) = [].
Proof. reflexivity. Qed.

(** ** Vanity IPs *)

(** The loop either parses every token, appending the addresses in
    order, or stops at the first token that does not parse. *)
Lemma vanityLoop_spec (P : string -> option IP) (toks : list string) :
  forall acc,
    (exists ips, Forall2 (parsesTo P) toks ips
                 /\ vanityLoop P toks acc = inr (acc ++ ips))
    \/ (exists pre tok post ips,
          toks = pre ++ tok :: post
          /\ Forall2 (parsesTo P) pre ips
          /\ P tok = None
          /\ vanityLoop P toks acc = inl ("Couldn't parse IP: " +:+ tok)).
Proof.
  induction toks as [|tok toks IH]; intros acc.
  - left. exists []. split; [constructor|]. simpl. now rewrite app_nil_r.
  - simpl. destruct (P tok) as [ip|] eqn:Hp.
    + destruct (IH (acc ++ [ip])) as [(ips & Hall & Hrun)
                                     |(pre & bad & post & ips & Heq & Hpre & Hbad & Hrun)].
      * left. exists (ip :: ips). split; [now constructor|].
        rewrite Hrun. now rewrite <- app_assoc.
      * right. exists (tok :: pre), bad, post, (ip :: ips). subst toks.
        repeat split; try assumption. now constructor.
    + right. exists [], tok, toks, []. repeat split; try assumption. constructor.
Qed.

Lemma Forall2_parsesTo_In (P : string -> option IP) (toks : list string)
    (ips : list IP) (tok : string) :
  Forall2 (parsesTo P) toks ips -> In tok toks -> P tok <> None.
Proof.
  induction 1 as [|t ip ts ips Hp _ IH]; intros Hin; [destruct Hin|].
  destruct Hin as [->|Hin]; [unfold parsesTo in Hp; congruence|now apply IH].
Qed.

(** The nameserver step leaves the vanity-IP fields alone. *)
Lemma normalizeVanityIPs_after_ns (P : string -> option IP) (c : Config) :
  match normalizeVanityIPs P c with
  | inl e => normalizeVanityIPs P (normalizeCanonicalNameservers c) = inl e
  | inr c' => exists c'',
      normalizeVanityIPs P (normalizeCanonicalNameservers c) = inr c''
      /\ vanityIPs c'' = vanityIPs c'
  end.
Proof.
  unfold normalizeVanityIPs, normalizeCanonicalNameservers.
  destruct (String.eqb (CanonicalNameservers c) "").
  - destruct (String.eqb (VanityIPs c) ""); [eauto|].
    destruct (vanityLoop _ _ _); eauto.
  - simpl. destruct (String.eqb (VanityIPs c) ""); [eauto|].
    destruct (vanityLoop _ _ _); eauto.
Qed.

(** A token that does not parse makes [New] return its error at once. *)
Lemma New_vanity_error (w : World) (c : Config) (e : error) (p : Proc) :
  normalizeVanityIPs (net_ParseIP w) (normalizeCanonicalNameservers c) = inl e ->
  exists p', run (New w c) p = (p', Returned (None, Some e))
             /\ sockets p' = sockets p /\ calls p' = calls p
             /\ openFiles p' = openFiles p.
Proof.
  intros H.
  destruct (run (New w c) p) as [p' r] eqn:Hrun.
  exists p'. explore Hrun.
  all: try discriminate H; injection H as <-.
  all: inversion Hrun; subst; clear Hrun; simpl; repeat split.
Qed.

(** C5. Vanity-IP normalisation, for a configuration whose unexported
    list is still nil: the empty string yields the empty list; otherwise
    the string is split on commas and each piece parsed as an IP
    address; if some piece does not parse, [New] fails with an error
    whose message names the first such piece; if all pieces parse, the
    normalised list holds the parsed addresses in input order. *)
Theorem vanity_ips_normalized (w : World) (c : Config) :
  vanityIPs c = [] ->
  let P := net_ParseIP w in
  let toks := strings.Split (VanityIPs c) ","%char in
  (VanityIPs c = "" ->
     exists c', normalizeVanityIPs P c = inr c' /\ vanityIPs c' = [])
  /\ (VanityIPs c <> "" ->
      (exists tok, In tok toks /\ P tok = None) ->
      exists pre tok post,
        toks = pre ++ tok :: post
        /\ (forall t, In t pre -> P t <> None)
        /\ P tok = None
        /\ normalizeVanityIPs P c = inl ("Couldn't parse IP: " +:+ tok)
        /\ forall p, exists p',
             run (New w c) p
             = (p', Returned (None, Some ("Couldn't parse IP: " +:+ tok))))
  /\ (VanityIPs c <> "" ->
      (forall tok, In tok toks -> P tok <> None) ->
      exists c', normalizeVanityIPs P c = inr c'
                 /\ Forall2 (parsesTo P) toks (vanityIPs c')
                 /\ forall p p' s err,
                      run (New w c) p = (p', Returned (Some s, err)) ->
                      vanityIPs (cfg s) = vanityIPs c').
Proof.
  intros Hraw P toks. split; [|split].
  - intros He. exists c. unfold normalizeVanityIPs. rewrite He. now split.
  - intros Hne (bad & Hin & Hbad).
    apply String.eqb_neq in Hne.
    destruct (vanityLoop_spec P toks (vanityIPs c))
      as [(ips & Hall & _)|(pre & tok & post & ips & Htoks & Hpre & Htok & Hrun)].
    { exfalso. exact (Forall2_parsesTo_In _ _ _ _ Hall Hin Hbad). }
    assert (Hn : normalizeVanityIPs P c = inl ("Couldn't parse IP: " +:+ tok)).
    { unfold normalizeVanityIPs. rewrite Hne. fold toks. now rewrite Hrun. }
    exists pre, tok, post. repeat split; try assumption.
    + intros t Ht. exact (Forall2_parsesTo_In _ _ _ _ Hpre Ht).
    + intros p. pose proof (normalizeVanityIPs_after_ns P c) as Hns.
      rewrite Hn in Hns.
      destruct (New_vanity_error w c _ p Hns) as (p' & Hr & _). eauto.
  - intros Hne Hok.
    apply String.eqb_neq in Hne.
    destruct (vanityLoop_spec P toks (vanityIPs c))
      as [(ips & Hall & Hrun)|(pre & tok & post & ips & Htoks & _ & Htok & _)].
    2:{ exfalso. apply (Hok tok); [|exact Htok].
        rewrite Htoks. apply in_or_app. right. now left. }
    assert (Hn : normalizeVanityIPs P c = inr (set_vanityIPs c ips)).
    { unfold normalizeVanityIPs. rewrite Hne. fold toks.
      rewrite Hrun, Hraw. reflexivity. }
    exists (set_vanityIPs c ips). repeat split; try assumption.
    intros p p' s err H. apply New_server_cfg in H.
    pose proof (normalizeVanityIPs_after_ns P c) as Hns.
    rewrite Hn in Hns. destruct Hns as (c'' & Hc'' & Hv).
    fold P in H. rewrite Hc'' in H. injection H as <-. exact Hv.
Qed.

Lemma vanity_ips_normalized_witness :
  let w := Demo.world false false in
  let c := Demo.withLists Demo.config "" "1.2.3.4,::1" in
  vanityIPs c = []
  /\ exists c', normalizeVanityIPs (net_ParseIP w) c = inr c'
                /\ Forall2 (parsesTo (net_ParseIP w))
                     ["1.2.3.4"; "::1"] (vanityIPs c').
Proof.
  split; [reflexivity|].
  destruct (proj2 (proj2 (vanity_ips_normalized (Demo.world false false)
              (Demo.withLists Demo.config "" "1.2.3.4,::1") eq_refl)))
    as (c' & Hn & Hall & _).
  - discriminate.
  - intros tok [<-|[<-|[]]]; discriminate.
  - exists c'. split; [exact Hn|exact Hall].
Defined.

Example vanity_ips_offending_token :
  snd (run (New (Demo.world false false)
              (Demo.withLists Demo.config "" "1.2.3.4,not-an-ip"))
         Demo.fresh)
  = Returned (None, Some "Couldn't parse IP: not-an-ip").
Proof. reflexivity. Qed.

(** ** Loading keys *)

Ltac unfold_body :=
  unfold run, callFn, loadKey, bind, Open, logCall, orReturn, ret, return_,
    Fatale.

(** C8. [loadKey] returns the error to its caller when the public-key
    file cannot be opened, cannot be parsed as a resource record, or
    holds a record that is not a DNSKEY record; the process goes on. *)
Theorem loadKey_public_key_errors (w : World) (s : Server)
    (fn privateFn : string) (e : error) (p : Proc) :
  PublicKeyFailure w (cpath w (cfg s) fn) e ->
  exists p',
    run (loadKey w s fn privateFn) p = (p', Returned (None, None, Some e)).
Proof.
  intros [e' Ho|f e' Ho Hr|f rr Ho Hr Hk]; unfold_body; simpl; rewrite Ho;
    simpl.
  - eexists. reflexivity.
  - rewrite Hr. eexists. reflexivity.
  - rewrite Hr. destruct rr as [[k|t txt]|].
    + now destruct (Hk k).
    + eexists. reflexivity.
    + eexists. reflexivity.
Qed.

Lemma loadKey_public_key_errors_witness :
  let w := Demo.world false false in
  PublicKeyFailure w (cpath w (cfg Demo.server) "address.key")
    "Loaded record from key file, but it wasn't a DNSKEY"
  /\ exists p',
       run (loadKey w Demo.server "address.key" "ksk.private") Demo.fresh
       = (p', Returned
                (None, None,
                 Some "Loaded record from key file, but it wasn't a DNSKEY")).
Proof.
  assert (Hf : PublicKeyFailure (Demo.world false false)
                 (cpath (Demo.world false false) (cfg Demo.server)
                    "address.key")
                 "Loaded record from key file, but it wasn't a DNSKEY").
  { eapply PKF_not_a_key; [reflexivity|reflexivity|discriminate]. }
  split; [exact Hf|].
  exact (loadKey_public_key_errors (Demo.world false false) Demo.server
           "address.key" "ksk.private" _ Demo.fresh Hf).
Defined.

Example loadKey_missing_public_key :
  snd (run (loadKey (Demo.world false false) Demo.server "nokey.key"
              "ksk.private") Demo.fresh)
  = Returned (None, None,
              Some "open /etc/ncdns/nokey.key: no such file or directory").
Proof. reflexivity. Qed.

Example loadKey_malformed_public_key :
  snd (run (loadKey (Demo.world false false) Demo.server "garbled.key"
              "ksk.private") Demo.fresh)
  = Returned (None, None,
              Some "dns: bad record in /etc/ncdns/garbled.key").
Proof. reflexivity. Qed.

(** A private-key file that cannot be opened is reported to the caller. *)
Lemma loadKey_private_key_unreadable (w : World) (s : Server)
    (fn privateFn : string) (f : File) (k : dns.DNSKEY) (e : error)
    (p : Proc) :
  os_Open w (cpath w (cfg s) fn) = inr f ->
  dns_ReadRR w f (cpath w (cfg s) fn) = inr (Some (dns.RR_DNSKEY k)) ->
  os_Open w (cpath w (cfg s) privateFn) = inl e ->
  exists p',
    run (loadKey w s fn privateFn) p = (p', Returned (Some k, None, Some e)).
Proof.
  intros Ho Hr Hp. unfold_body; simpl. rewrite Ho. simpl. rewrite Hr. simpl.
  rewrite Hp.
  eexists. reflexivity.
Qed.

(** C2. When the public key loads and the private-key file opens but
    does not parse, [loadKey] does not return: [log.Fatale] ends the
    process with the parse error. *)
Theorem loadKey_private_key_parse_failure_exits (w : World) (s : Server)
    (fn privateFn : string) (f pf : File) (k : dns.DNSKEY) (e : error)
    (p : Proc) :
  os_Open w (cpath w (cfg s) fn) = inr f ->
  dns_ReadRR w f (cpath w (cfg s) fn) = inr (Some (dns.RR_DNSKEY k)) ->
  os_Open w (cpath w (cfg s) privateFn) = inr pf ->
  ReadPrivateKey w k pf (cpath w (cfg s) privateFn) = inl e ->
  exists p', run (loadKey w s fn privateFn) p = (p', Exited e).
Proof.
  intros Ho Hr Hp Hk. unfold_body; simpl. rewrite Ho. simpl. rewrite Hr.
  simpl. rewrite Hp. simpl. rewrite Hk. eexists. reflexivity.
Qed.

Lemma loadKey_private_key_parse_failure_exits_witness :
  exists p',
    run (loadKey (Demo.world false false) Demo.server "ksk.key"
           "garbled.private") Demo.fresh
    = (p', Exited "dns: bad private key in /etc/ncdns/garbled.private").
Proof.
  exact (loadKey_private_key_parse_failure_exits (Demo.world false false)
           Demo.server "ksk.key" "garbled.private"
           (mkFile "/etc/ncdns/ksk.key" Demo.kskText)
           (mkFile "/etc/ncdns/garbled.private" "not a private key")
           Demo.kskRecord _ Demo.fresh
           eq_refl eq_refl eq_refl eq_refl).
Defined.

(** The same failure seen from [New]: the construction attempt ends the
    process instead of returning an error. *)
Example New_private_key_parse_failure_exits :
  snd (run (New (Demo.world false false)
              (Demo.withKeys Demo.config "ksk.key" "garbled.private"
                 "zsk.key" "zsk.private"))
         Demo.fresh)
  = Exited "dns: bad private key in /etc/ncdns/garbled.private".
Proof. reflexivity. Qed.

(** ** What [New] does on the way *)

(** Normalisation changes the two unexported lists only. *)
Lemma normalized_ConfigDir (P : string -> option IP) (c c' : Config) :
  normalizeVanityIPs P (normalizeCanonicalNameservers c) = inr c' ->
  ConfigDir c' = ConfigDir c /\ Bind c' = Bind c.
Proof.
  unfold normalizeVanityIPs, normalizeCanonicalNameservers.
  destruct (String.eqb (CanonicalNameservers c) ""); simpl.
  - destruct (String.eqb (VanityIPs c) ""); [now intros [= <-]|].
    destruct (vanityLoop _ _ _); [discriminate|now intros [= <-]].
  - destruct (String.eqb (VanityIPs c) ""); [now intros [= <-]|].
    destruct (vanityLoop _ _ _); [discriminate|now intros [= <-]].
Qed.

Ltac split_In Hin :=
  simpl in Hin;
  repeat match type of Hin with
         | _ \/ _ => destruct Hin as [Hin|Hin]
         end.

Ltac same_dir :=
  match goal with
  | E : normalizeVanityIPs _ (normalizeCanonicalNameservers ?c) = inr ?c' |- _ =>
      let Hd := fresh "Hd" in
      destruct (normalized_ConfigDir _ _ _ E) as [Hd _];
      unfold cpath; rewrite Hd
  end.

(** Every file [New] opens is one of the four key files, under its
    name resolved against [ConfigDir], and a pair is only touched when
    its public-key path is not empty. *)
Lemma New_opened_names (w : World) (c : Config) (p p' : Proc)
    (r : Outcome NewResult) (name : string) :
  run (New w c) p = (p', r) ->
  In (Call_os_Open name) (calls p') ->
  In (Call_os_Open name) (calls p)
  \/ (PublicKey c <> ""
      /\ (name = cpath w c (PublicKey c)
          \/ name = cpath w c (PrivateKeyPath c)))
  \/ (ZonePublicKey c <> ""
      /\ (name = cpath w c (ZonePublicKey c)
          \/ name = cpath w c (ZonePrivateKey c))).
Proof.
  intros H Hin. explore H.
  all: inversion H; subst; clear H; split_In Hin.
  all: try discriminate Hin.
  all: try (left; exact Hin).
  all: right; injection Hin as <-.
  all: repeat match goal with
         | E : String.eqb _ "" = false |- _ => apply String.eqb_neq in E
         end.
  all: same_dir; tauto.
Qed.

(** The engine configuration [New] assembles has no key where the
    public-key path is empty. *)
Lemma New_engine_config (w : World) (c : Config) (p p' : Proc)
    (r : Outcome NewResult) (ecfg : EngineConfig) :
  run (New w c) p = (p', r) ->
  In (Call_madns_NewEngine ecfg) (calls p') ->
  In (Call_madns_NewEngine ecfg) (calls p)
  \/ ((PublicKey c = "" -> KSK ecfg = None /\ KSKPrivate ecfg = None)
      /\ (ZonePublicKey c = "" -> ZSK ecfg = None /\ ZSKPrivate ecfg = None)).
Proof.
  intros H Hin. explore H.
  all: inversion H; subst; clear H; split_In Hin.
  all: try discriminate Hin.
  all: try (left; exact Hin).
  all: right; injection Hin as <-; simpl.
  all: repeat match goal with
         | E : String.eqb _ "" = false |- _ => apply String.eqb_neq in E
         end.
  all: split; intros ?; try contradiction; split; reflexivity.
Qed.

(** Without key paths [New] opens no file. *)
Lemma New_no_keys_no_files (w : World) (c : Config) (p p' : Proc)
    (r : Outcome NewResult) :
  PublicKey c = "" -> ZonePublicKey c = "" ->
  run (New w c) p = (p', r) ->
  openFiles p' = openFiles p.
Proof.
  intros Hk Hz H.
  apply String.eqb_eq in Hk. apply String.eqb_eq in Hz.
  unfold_fn H. rewrite Hk, Hz in H. explore H.
  all: inversion H; subst; clear H; reflexivity.
Qed.

(** C7. An empty public-key path switches the loading of that pair
    off, for the KSK and for the ZSK on their own: the step is a no-op
    that leaves the process state and the engine configuration as they
    are, the engine configuration [New] assembles has no key of that
    kind, and every file [New] opens belongs to the other pair. *)
Theorem empty_public_key_path_skips_loading (w : World) (c : Config) :
  (PublicKey c = "" ->
     (forall s ecfg p, setupKSK w c s ecfg p = (p, Next ecfg))
     /\ forall p p' r,
          run (New w c) p = (p', r) ->
          (forall ecfg,
             In (Call_madns_NewEngine ecfg) (calls p') ->
             ~ In (Call_madns_NewEngine ecfg) (calls p) ->
             KSK ecfg = None /\ KSKPrivate ecfg = None)
          /\ (forall name,
                In (Call_os_Open name) (calls p') ->
                ~ In (Call_os_Open name) (calls p) ->
                name = cpath w c (ZonePublicKey c)
                \/ name = cpath w c (ZonePrivateKey c)))
  /\ (ZonePublicKey c = "" ->
      (forall s ecfg p, setupZSK w c s ecfg p = (p, Next ecfg))
      /\ forall p p' r,
           run (New w c) p = (p', r) ->
           (forall ecfg,
              In (Call_madns_NewEngine ecfg) (calls p') ->
              ~ In (Call_madns_NewEngine ecfg) (calls p) ->
              ZSK ecfg = None /\ ZSKPrivate ecfg = None)
           /\ (forall name,
                 In (Call_os_Open name) (calls p') ->
                 ~ In (Call_os_Open name) (calls p) ->
                 name = cpath w c (PublicKey c)
                 \/ name = cpath w c (PrivateKeyPath c)))
  /\ (PublicKey c = "" -> ZonePublicKey c = "" ->
      forall p p' r, run (New w c) p = (p', r) ->
                     openFiles p' = openFiles p).
Proof.
  split; [|split].
  - intros Hk. split.
    + intros s ecfg p. unfold setupKSK. now rewrite Hk.
    + intros p p' r H. split.
      * intros ecfg Hin Hnew.
        destruct (New_engine_config _ _ _ _ _ _ H Hin) as [Hold|[Hksk _]];
          [contradiction|exact (Hksk Hk)].
      * intros name Hin Hnew.
        destruct (New_opened_names _ _ _ _ _ _ H Hin)
          as [Hold|[[Hne _]|[_ Hz]]];
          [contradiction|contradiction|exact Hz].
  - intros Hz. split.
    + intros s ecfg p. unfold setupZSK. now rewrite Hz.
    + intros p p' r H. split.
      * intros ecfg Hin Hnew.
        destruct (New_engine_config _ _ _ _ _ _ H Hin) as [Hold|[_ Hzsk]];
          [contradiction|exact (Hzsk Hz)].
      * intros name Hin Hnew.
        destruct (New_opened_names _ _ _ _ _ _ H Hin)
          as [Hold|[[_ Hk]|[Hne _]]];
          [contradiction|exact Hk|contradiction].
  - intros Hk Hz p p' r H. exact (New_no_keys_no_files _ _ _ _ _ Hk Hz H).
Qed.

Lemma empty_public_key_path_skips_loading_witness :
  let w := Demo.world false false in
  let c := Demo.withKeys Demo.config "" "ksk.private" "" "zsk.private" in
  let ecfg := mkEngineConfig 1%N "ncdns (devel)" None None None None in
  setupKSK w c Demo.server ecfg Demo.fresh = (Demo.fresh, Next ecfg)
  /\ setupZSK w c Demo.server ecfg Demo.fresh = (Demo.fresh, Next ecfg).
Proof.
  intros w c ecfg. split.
  - exact (proj1 (proj1 (empty_public_key_path_skips_loading w c) eq_refl)
             Demo.server ecfg Demo.fresh).
  - exact (proj1 (proj1 (proj2 (empty_public_key_path_skips_loading w c))
                    eq_refl) Demo.server ecfg Demo.fresh).
Defined.

Example zsk_alone_is_loaded :
  let r := run (New (Demo.world false false)
                  (Demo.withKeys Demo.config "" "" "zsk.key" "zsk.private"))
             Demo.fresh in
  map fileName (openFiles (fst r))
  = ["/etc/ncdns/zsk.private"; "/etc/ncdns/zsk.key"]
  /\ exists s, snd r = Returned (Some s, None).
Proof. split; [reflexivity|eexists; reflexivity]. Qed.

(** ** The KSK needs a ZSK *)

(** C4. When the key-signing key is configured and loads, and no
    zone-signing key is configured, [New] returns the error "Must
    specify ZSK if KSK is specified"; it has then resolved no address
    and bound no socket. *)
Theorem ksk_without_zsk_rejected (w : World) (c : Config) (k : dns.DNSKEY)
    (pk : PrivateKey) (p : Proc) :
  PublicKey c <> "" ->
  ZonePublicKey c = "" ->
  ReachesKeySetup w c ->
  KeyLoads w c (PublicKey c) (PrivateKeyPath c) k pk ->
  exists p',
    run (New w c) p
    = (p', Returned (None, Some "Must specify ZSK if KSK is specified"))
    /\ sockets p' = sockets p
    /\ forall call, In call (calls p') -> isNetCall call = true ->
                    In call (calls p).
Proof.
  intros Hk Hz (c' & b & Hv & Hb) (f & pf & Ho & Hr & Hpo & Hpk).
  apply String.eqb_neq in Hk. apply String.eqb_eq in Hz.
  destruct (normalized_ConfigDir _ _ _ Hv) as [Hd _].
  unfold cpath in Ho, Hr, Hpo, Hpk. rewrite <- Hd in Ho, Hr, Hpo, Hpk.
  destruct (run (New w c) p) as [p' r] eqn:H. exists p'.
  unfold_fn H. unfold cpath in H. unfold_fn Hb.
  destruct (String.eqb (NamecoinRPCCookiePath c) "") eqn:Hcookie;
    unfold_fn H; unfold_fn Hb; rewrite Hv in H; unfold_fn H;
    rewrite Hb in H; unfold_fn H; rewrite Hk in H; unfold_fn H;
    rewrite Ho in H; unfold_fn H; rewrite Hr in H; unfold_fn H;
    rewrite Hpo in H; unfold_fn H; rewrite Hpk in H; unfold_fn H;
    rewrite Hz in H; unfold_fn H;
    destruct p as [v fs socks cs]; unfold_fn H;
    inversion H; subst; clear H; simpl;
    (split; [reflexivity|split; [reflexivity|]]);
    intros call Hin Hnet; split_In Hin; subst; try discriminate Hnet;
    exact Hin.
Qed.

Lemma ksk_without_zsk_rejected_witness :
  let w := Demo.world false false in
  let c := Demo.withKeys Demo.config "ksk.key" "ksk.private" "" "" in
  exists p',
    run (New w c) Demo.fresh
    = (p', Returned (None, Some "Must specify ZSK if KSK is specified"))
    /\ sockets p' = sockets Demo.fresh
    /\ forall call, In call (calls p') -> isNetCall call = true ->
                    In call (calls Demo.fresh).
Proof.
  refine (ksk_without_zsk_rejected (Demo.world false false)
            (Demo.withKeys Demo.config "ksk.key" "ksk.private" "" "")
            Demo.kskRecord Demo.privText Demo.fresh _ eq_refl _ _).
  - discriminate.
  - eexists _, _. split; reflexivity.
  - exists (mkFile "/etc/ncdns/ksk.key" Demo.kskText),
      (mkFile "/etc/ncdns/ksk.private" Demo.privText).
    repeat split.
Defined.

(** The reverse is accepted: a ZSK without a KSK. *)
Example zsk_without_ksk_accepted :
  exists s,
    snd (run (New (Demo.world false false)
                (Demo.withKeys Demo.config "" "" "zsk.key" "zsk.private"))
           Demo.fresh)
    = Returned (Some s, None).
Proof. eexists. reflexivity. Qed.

(** ** Sockets after a failed construction *)

(** C3, counterexample. A failed [New] does not in general leave the
    sockets as they were: with the UDP port taken, the TCP socket bound
    just before stays open. *)
Lemma New_error_leaves_tcp_socket_open :
  ~ (forall w c p p' s e,
       run (New w c) p = (p', Returned (s, Some e)) ->
       sockets p' = sockets p).
Proof.
  intros Hclaim.
  eassert (Hrun : run (New (Demo.world true false) Demo.config) Demo.fresh
                  = (_, Returned (_, Some _))) by (vm_compute; reflexivity).
  apply Hclaim in Hrun. discriminate Hrun.
Qed.

Example New_udp_port_taken :
  let r := run (New (Demo.world true false) Demo.config) Demo.fresh in
  sockets (fst r) = [TCPSocket (mkTCPListener ":53")]
  /\ exists s,
       snd r = Returned
                 (Some s,
                  Some "listen udp :53: bind: address already in use").
Proof. split; [reflexivity|eexists; reflexivity]. Qed.

Example New_web_frontend_fails :
  let r := run (New (Demo.world false true)
                  (Demo.withHTTP Demo.config ":8080")) Demo.fresh in
  sockets (fst r)
  = [UDPSocket (mkUDPConn ":53"); TCPSocket (mkTCPListener ":53")]
  /\ exists s,
       snd r = Returned
                 (Some s,
                  Some "listen tcp :8080: bind: address already in use").
Proof. split; [reflexivity|eexists; reflexivity]. Qed.

(** C3, in the form the code satisfies. When [New] returns an error,
    no serve loop has been started, and the sockets left open are those
    [New] had bound before the step that failed, for [New] closes
    nothing: the TCP socket when the last thing [New] did was to
    resolve or bind the UDP address, both sockets when it was to start
    the web frontend, and none otherwise (a configuration, backend,
    key, engine, TCP resolve or TCP bind error). *)
Theorem New_error_open_sockets (w : World) (c : Config) (p p' : Proc)
    (s : option Server) (e : error) :
  calls p = [] ->
  run (New w c) p = (p', Returned (s, Some e)) ->
  (forall sv, s = Some sv -> udpServer sv = None /\ tcpServer sv = None)
  /\ match calls p' with
     | Call_net_ResolveUDPAddr _ :: _
     | Call_net_ListenUDP _ :: _ =>
         exists l, sockets p' = TCPSocket l :: sockets p
     | Call_webStart _ :: _ =>
         exists l u, sockets p' = UDPSocket u :: TCPSocket l :: sockets p
     | _ => sockets p' = sockets p
     end.
Proof.
  intros Hlog H. explore H.
  all: simpl in Hlog; subst.
  all: inversion H; subst; clear H; simpl.
  all: split; [intros sv [= <-]; split; reflexivity|].
  all: first [reflexivity | eexists; reflexivity | eexists _, _; reflexivity].
Qed.

Lemma New_error_open_sockets_witness :
  let p' := fst (run (New (Demo.world true false) Demo.config) Demo.fresh) in
  calls Demo.fresh = []
  /\ exists l, sockets p' = TCPSocket l :: sockets Demo.fresh.
Proof.
  split; [reflexivity|].
  eassert (Hrun : run (New (Demo.world true false) Demo.config) Demo.fresh
                  = (_, Returned (_, Some _))) by (vm_compute; reflexivity).
  exact (proj2 (New_error_open_sockets (Demo.world true false) Demo.config
                  Demo.fresh _ _ _ eq_refl Hrun)).
Defined.

(** ** Paths and the base directory *)

(** The four key files are opened under their names resolved against
    [ConfigDir]; nothing else is opened. *)
Lemma New_key_paths_resolved (w : World) (c : Config) (p p' : Proc)
    (r : Outcome NewResult) (name : string) :
  run (New w c) p = (p', r) ->
  In (Call_os_Open name) (calls p') ->
  ~ In (Call_os_Open name) (calls p) ->
  In name [cpath w c (PublicKey c); cpath w c (PrivateKeyPath c);
           cpath w c (ZonePublicKey c); cpath w c (ZonePrivateKey c)].
Proof.
  intros H Hin Hnew.
  destruct (New_opened_names _ _ _ _ _ _ H Hin)
    as [Hold|[[_ [->| ->]]|[_ [->| ->]]]]; simpl; tauto.
Qed.

(** The cookie path reaches [cookieRetriever], and with it
    [backend.New], exactly as it stands in the configuration. *)
Lemma New_cookie_path_as_configured (w : World) (c : Config) (p p' : Proc)
    (r : Outcome NewResult) (bc : BackendConfig) :
  NamecoinRPCCookiePath c <> "" ->
  run (New w c) p = (p', r) ->
  In (Call_backend_New bc) (calls p') ->
  ~ In (Call_backend_New bc) (calls p) ->
  namecoin.GetAuth (bc_NamecoinConn bc)
  = Some (cookieRetriever (NamecoinRPCCookiePath c)).
Proof.
  intros Hne H Hin Hnew. apply String.eqb_neq in Hne.
  destruct (New_backend_config _ _ _ _ _ _ H Hin)
    as [Hold|(c' & _ & _ & _ & Hauth)]; [contradiction|].
  now rewrite Hne in Hauth.
Qed.

(** C9. With base directory [/etc/ncdns] and the relative cookie path
    [cookie], the key files are opened under the base directory, but
    the credential retriever handed to [backend.New] holds [cookie],
    not [/etc/ncdns/cookie]. *)
Theorem cookie_path_not_resolved :
  let w := Demo.world false false in
  let c := Demo.withCookie
             (Demo.withKeys Demo.config "ksk.key" "ksk.private"
                "zsk.key" "zsk.private") "cookie" in
  exists p' s bc,
    run (New w c) Demo.fresh = (p', Returned (Some s, None))
    /\ map fileName (openFiles p')
       = ["/etc/ncdns/zsk.private"; "/etc/ncdns/zsk.key";
          "/etc/ncdns/ksk.private"; "/etc/ncdns/ksk.key"]
    /\ In (Call_backend_New bc) (calls p')
    /\ namecoin.GetAuth (bc_NamecoinConn bc) = Some (cookieRetriever "cookie")
    /\ namecoin.GetAuth (namecoinConn s) = Some (cookieRetriever "cookie")
    /\ cpath w c "cookie" = "/etc/ncdns/cookie"
    /\ cookieRetriever "cookie" <> cookieRetriever (cpath w c "cookie").
Proof.
  intros w c. eexists _, _, _. split; [vm_compute; reflexivity|].
  split; [reflexivity|]. split.
  - simpl. do 9 right. left. reflexivity.
  - repeat split. discriminate.
Qed.

(** ** The readiness barrier *)

Lemma signals_cons (net : string) (e : Event) (evs : list Event) :
  signals net (e :: evs)
  = (if isDone net e then 1 else 0) + signals net evs.
Proof. unfold signals. simpl. now destruct (isDone net e). Qed.

Lemma signals_In (net : string) (evs : list Event) :
  0 < signals net evs -> In (EvDone net) evs.
Proof.
  induction evs as [|e evs IH]; [unfold signals; simpl; lia|].
  rewrite signals_cons. destruct (isDone net e) eqn:He.
  - intros _. left. destruct e; try discriminate He.
    simpl in He. apply String.eqb_eq in He. now subst.
  - intros H. right. apply IH. lia.
Qed.

(** An event that is not a signal of loop [net] leaves the loop's
    bookkeeping as it is. *)
Lemma loopOK_cons (net : string) (g : Goroutine) (e : Event)
    (evs : list Event) :
  isDone net e = false -> loopOK net g evs -> loopOK net g (e :: evs).
Proof.
  intros He (Hnet & Hcb & Hpc). repeat split; try assumption.
  rewrite signals_cons, He. simpl.
  destruct (g_pc g); try assumption.
  destruct Hpc as [Hs Hin]. split; [assumption|now right].
Qed.

Lemma ordered_cons (e : Event) (evs : list Event) :
  ordered evs ->
  (forall net, e = EvDone net -> In (EvAccepting net) evs) ->
  (forall r, e = EvStartReturned r ->
             In (EvDone "udp") evs /\ In (EvDone "tcp") evs) ->
  ordered (e :: evs).
Proof.
  intros [Hd Hr] Hed Her. split.
  - intros net [|x l1] l2 Heq; simpl in Heq; injection Heq as -> ->.
    + now apply Hed.
    + eapply Hd. reflexivity.
  - intros r [|x l1] l2 Heq; simpl in Heq; injection Heq as -> ->.
    + now apply (Her r).
    + eapply Hr. reflexivity.
Qed.

Lemma initSys_inv (s : Server) : wgStart s = 0%Z -> StartInv (initSys s).
Proof.
  intros Hwg. repeat split; simpl; try assumption.
  - intros net [|x l1] l2 Heq; discriminate Heq.
  - destruct l1; discriminate H.
  - destruct l1; discriminate H.
Qed.

Ltac inv_step H := injection H as <-; unfold StartInv, shape, counted; simpl.

Lemma stepMain_inv (st st' : Sys) :
  StartInv st -> stepMain st = Some st' -> StartInv st'.
Proof.
  intros (Hshape & Hcount & Hord) Hstep.
  unfold stepMain in Hstep. unfold shape in Hshape. unfold counted in Hcount.
  destruct (mainPC st) eqn:Hpc.
  - (* Add *)
    destruct Hshape as (Hg & Hu & Ht). inv_step Hstep.
    rewrite !signals_cons. simpl. rewrite Hg, Hu, Ht, Hcount, Hu, Ht.
    split; [auto|split; [reflexivity|]].
    apply ordered_cons; [assumption|discriminate|discriminate].
  - (* runListener("udp") *)
    destruct Hshape as (Hg & Hu & Ht). unfold runListener in Hstep.
    simpl in Hstep. inv_step Hstep.
    rewrite !signals_cons. simpl. rewrite Hg, Hu, Ht, Hcount, Hu, Ht.
    split; [|split; [reflexivity|]].
    + eexists. split; [reflexivity|]. split; [|reflexivity].
      split; [reflexivity|split; [reflexivity|]]. simpl.
      rewrite signals_cons. simpl. exact Hu.
    + apply ordered_cons; [assumption|discriminate|discriminate].
  - (* runListener("tcp") *)
    destruct Hshape as (gu & Hg & Hgu & Ht). unfold runListener in Hstep.
    simpl in Hstep. inv_step Hstep.
    rewrite !signals_cons. simpl. rewrite Hg, Hcount.
    split; [|split; [reflexivity|]].
    + exists gu. eexists. split; [reflexivity|]. split.
      * apply loopOK_cons; [reflexivity|assumption].
      * split; [reflexivity|split; [reflexivity|]]. simpl.
        rewrite signals_cons. simpl. exact Ht.
    + apply ordered_cons; [assumption|discriminate|discriminate].
  - (* Wait *)
    destruct (Z.eqb_spec (wgStart (srv st)) 0) as [Hz|]; [|discriminate].
    destruct Hshape as (gu & gt & Hg & Hgu & Hgt). inv_step Hstep.
    rewrite !signals_cons. simpl.
    assert (Hu : signals "udp" (events st) <= 1).
    { destruct Hgu as (_ & _ & Hgu). destruct (g_pc gu); lia. }
    assert (Ht : signals "tcp" (events st) <= 1).
    { destruct Hgt as (_ & _ & Hgt). destruct (g_pc gt); lia. }
    split; [|split; [exact Hcount|]].
    + split; [|lia]. exists gu, gt. split; [assumption|].
      split; apply loopOK_cons; try reflexivity; assumption.
    + apply ordered_cons; [assumption|discriminate|discriminate].
  - (* log.Info; return nil *)
    destruct Hshape as ((gu & gt & Hg & Hgu & Hgt) & Hu & Ht). inv_step Hstep.
    rewrite !signals_cons. simpl.
    split; [|split; [exact Hcount|]].
    + split; [|split; assumption]. exists gu, gt. split; [assumption|].
      split; apply loopOK_cons; try reflexivity; assumption.
    + apply ordered_cons; [assumption|discriminate|].
      intros r _. split; apply signals_In; lia.
  - discriminate.
  - discriminate.
Qed.

(** The goroutine at index [i], with the loop it runs. *)
Lemma shape_lookup (st : Sys) (i : nat) (g : Goroutine) :
  shape st -> goroutines st !! i = Some g ->
  (i = 0 /\ loopOK "udp" g (events st))
  \/ (i = 1 /\ loopOK "tcp" g (events st)).
Proof.
  unfold shape, twoLoops. intros Hs Hi.
  destruct (mainPC st).
  - destruct Hs as (Hg & _). now rewrite Hg in Hi.
  - destruct Hs as (Hg & _). now rewrite Hg in Hi.
  - destruct Hs as (gu & Hg & Hgu & _). rewrite Hg in Hi.
    destruct i as [|[|i]]; try discriminate Hi.
    injection Hi as <-. now left.
  - destruct Hs as (gu & gt & Hg & Hgu & Hgt). rewrite Hg in Hi.
    destruct i as [|[|i]]; try discriminate Hi; injection Hi as <-; auto.
  - destruct Hs as ((gu & gt & Hg & Hgu & Hgt) & _). rewrite Hg in Hi.
    destruct i as [|[|i]]; try discriminate Hi; injection Hi as <-; auto.
  - destruct Hs as ((gu & gt & Hg & Hgu & Hgt) & _). rewrite Hg in Hi.
    destruct i as [|[|i]]; try discriminate Hi; injection Hi as <-; auto.
  - destruct Hs.
Qed.

(** Replacing goroutine [i] by one that agrees with the new events,
    when the new events hold no signal of the other loop and the
    signal counts stay what they were. *)
Lemma shape_update (st : Sys) (i : nat) (net : string) (g' : Goroutine)
    (new : list Event) (s' : Server) (ex : option error) :
  shape st ->
  (i = 0 /\ net = "udp") \/ (i = 1 /\ net = "tcp") ->
  i < length (goroutines st) ->
  loopOK net g' (new ++ events st) ->
  (forall other e, other <> net -> In e new -> isDone other e = false) ->
  (match mainPC st with
   | AtLogInfo | StartReturned _ =>
       signals net (new ++ events st) = signals net (events st)
   | _ => True
   end) ->
  shape (mkSys s' (mainPC st) (<[i := g']> (goroutines st)) ex (infoLog st)
           (new ++ events st)).
Proof.
  intros Hs Hi Hlen Hg' Hother Hpast.
  assert (Hkeep : forall other g,
            other <> net -> loopOK other g (events st) ->
            loopOK other g (new ++ events st)).
  { intros other g Hne Hg. clear Hg' Hpast. induction new as [|e new IH].
    - exact Hg.
    - simpl. apply loopOK_cons.
      + apply Hother; [assumption|now left].
      + apply IH. intros o e' Ho Hin. apply Hother; [assumption|now right]. }
  assert (Hsig : forall other,
            other <> net ->
            signals other (new ++ events st) = signals other (events st)).
  { intros other Hne. clear Hg' Hpast Hkeep. induction new as [|e new IH].
    - reflexivity.
    - simpl. rewrite signals_cons, Hother; [|assumption|now left].
      apply IH. intros o e' Ho Hin. apply Hother; [assumption|now right]. }
  unfold shape, twoLoops in *. simpl.
  destruct (mainPC st).
  - destruct Hs as (Hg & _). rewrite Hg in Hlen. simpl in Hlen. lia.
  - destruct Hs as (Hg & _). rewrite Hg in Hlen. simpl in Hlen. lia.
  - destruct Hs as (gu & Hg & Hgu & Ht). rewrite Hg in *.
    destruct Hi as [[-> ->]|[-> ->]]; [|simpl in Hlen; lia].
    exists g'. simpl. split; [reflexivity|]. split; [assumption|].
    rewrite Hsig; [assumption|discriminate].
  - destruct Hs as (gu & gt & Hg & Hgu & Hgt). rewrite Hg.
    destruct Hi as [[-> ->]|[-> ->]]; simpl.
    + exists g', gt. split; [reflexivity|]. split; [assumption|].
      apply Hkeep; [discriminate|assumption].
    + exists gu, g'. split; [reflexivity|]. split; [|assumption].
      apply Hkeep; [discriminate|assumption].
  - destruct Hs as ((gu & gt & Hg & Hgu & Hgt) & Hu & Ht). rewrite Hg.
    destruct Hi as [[-> ->]|[-> ->]]; simpl.
    + split; [|split; [now rewrite Hpast|]].
      * exists g', gt. split; [reflexivity|]. split; [assumption|].
        apply Hkeep; [discriminate|assumption].
      * rewrite Hsig; [assumption|discriminate].
    + split; [|split; [|now rewrite Hpast]].
      * exists gu, g'. split; [reflexivity|]. split; [|assumption].
        apply Hkeep; [discriminate|assumption].
      * rewrite Hsig; [assumption|discriminate].
  - destruct Hs as ((gu & gt & Hg & Hgu & Hgt) & Hu & Ht). rewrite Hg.
    destruct Hi as [[-> ->]|[-> ->]]; simpl.
    + split; [|split; [now rewrite Hpast|]].
      * exists g', gt. split; [reflexivity|]. split; [assumption|].
        apply Hkeep; [discriminate|assumption].
      * rewrite Hsig; [assumption|discriminate].
    + split; [|split; [|now rewrite Hpast]].
      * exists gu, g'. split; [reflexivity|]. split; [|assumption].
        apply Hkeep; [discriminate|assumption].
      * rewrite Hsig; [assumption|discriminate].
  - destruct Hs.
Qed.

Lemma shape_lookup_net (st : Sys) (i : nat) (g : Goroutine) :
  shape st -> goroutines st !! i = Some g ->
  exists net,
    ((i = 0 /\ net = "udp") \/ (i = 1 /\ net = "tcp"))
    /\ (net = "udp" \/ net = "tcp")
    /\ i < length (goroutines st)
    /\ loopOK net g (events st).
Proof.
  intros Hs Hi. pose proof (lookup_lt_Some _ _ _ Hi) as Hlt.
  destruct (shape_lookup _ _ _ Hs Hi) as [[-> Hg]|[-> Hg]];
    [exists "udp"|exists "tcp"]; auto 6.
Qed.

Lemma past_wait_trivial (pc : StartPC) (P : Prop) :
  P -> match pc with AtLogInfo | StartReturned _ => P | _ => True end.
Proof. now destruct pc. Qed.

Lemma stepLib_inv (i : nat) (m : LibMove) (st st' : Sys) :
  StartInv st -> stepLib i m st = Some st' -> StartInv st'.
Proof.
  intros (Hshape & Hcount & Hord) Hstep. unfold stepLib in Hstep.
  destruct (goroutines st !! i) as [g|] eqn:Hi; [|discriminate].
  destruct (shape_lookup_net _ _ _ Hshape Hi)
    as (net & Hnet & Hcases & Hlt & Hds & Hcb & Hpc).
  unfold counted in Hcount.
  destruct (g_pc g) eqn:Hg, m; try discriminate Hstep;
    injection Hstep as <-; unfold setPC; rewrite ?Hds.
  - (* the transport accepts *)
    split; [|split].
    + apply shape_update with (net := net); try assumption.
      * split; [exact Hds|split; [exact Hcb|]]. simpl.
        rewrite signals_cons. simpl. split; [exact Hpc|now left].
      * intros other e _ [<-|[]]. reflexivity.
      * apply past_wait_trivial. simpl. now rewrite signals_cons.
    + unfold counted. simpl. rewrite !signals_cons. simpl. exact Hcount.
    + simpl. apply ordered_cons; [assumption|discriminate|discriminate].
  - (* ActivateAndServe returns before accepting *)
    split; [|split; [exact Hcount|exact Hord]].
    apply shape_update with (net := net) (new := []); try assumption.
    + split; [exact Hds|split; [exact Hcb|]]. simpl. lia.
    + intros other e _ [].
    + now apply past_wait_trivial.
  - (* ActivateAndServe returns while serving *)
    split; [|split; [exact Hcount|exact Hord]].
    apply shape_update with (net := net) (new := []); try assumption.
    + split; [exact Hds|split; [exact Hcb|]]. simpl. lia.
    + intros other e _ [].
    + now apply past_wait_trivial.
Qed.

(** An event that is no signal and no return of [Start] keeps the
    invariant, whatever else stays as it is. *)
Lemma StartInv_exit (st : Sys) (e : error) :
  StartInv st ->
  StartInv (mkSys (srv st) (mainPC st) (goroutines st) (Some e)
              (infoLog st) (EvExit e :: events st)).
Proof.
  intros (Hshape & Hcount & Hord). split; [|split].
  - unfold shape, twoLoops in *. simpl. rewrite !signals_cons. simpl.
    destruct (mainPC st); try assumption.
    + destruct Hshape as (gu & Hg & Hgu & Ht). exists gu.
      split; [assumption|]. split; [|assumption].
      apply loopOK_cons; [reflexivity|assumption].
    + destruct Hshape as (gu & gt & Hg & Hgu & Hgt). exists gu, gt.
      split; [assumption|].
      split; apply loopOK_cons; try reflexivity; assumption.
    + destruct Hshape as ((gu & gt & Hg & Hgu & Hgt) & Hs).
      split; [|assumption]. exists gu, gt. split; [assumption|].
      split; apply loopOK_cons; try reflexivity; assumption.
    + destruct Hshape as ((gu & gt & Hg & Hgu & Hgt) & Hs).
      split; [|assumption]. exists gu, gt. split; [assumption|].
      split; apply loopOK_cons; try reflexivity; assumption.
  - unfold counted in *. simpl. rewrite !signals_cons. simpl. exact Hcount.
  - simpl. apply ordered_cons; [assumption|discriminate|discriminate].
Qed.

Lemma stepLoop_inv (i : nat) (st st' : Sys) :
  StartInv st -> stepLoop i st = Some st' -> StartInv st'.
Proof.
  intros Hinv Hstep. pose proof Hinv as (Hshape & Hcount & Hord).
  unfold stepLoop in Hstep.
  destruct (goroutines st !! i) as [g|] eqn:Hi; [|discriminate].
  destruct (shape_lookup_net _ _ _ Hshape Hi)
    as (net & Hnet & Hcases & Hlt & Hds & Hcb & Hpc).
  unfold counted in Hcount.
  destruct (g_pc g) as [| | |[e|]|] eqn:Hg; try discriminate Hstep.
  - (* NotifyStartedFunc: s.wgStart.Done() *)
    rewrite Hcb in Hstep.
    destruct (Z.ltb_spec (wgStart (srv st) - 1) 0) as [Hneg|Hpos].
    { injection Hstep as <-. now apply StartInv_exit. }
    injection Hstep as <-. unfold setPC. simpl. rewrite Hds.
    destruct Hpc as [Hzero Hacc].
    assert (Hone : signals net (EvDone net :: events st) = 1).
    { rewrite signals_cons. simpl. rewrite String.eqb_refl. lia. }
    split; [|split].
    + apply (shape_update st i net _ [EvDone net]); try assumption.
      * split; [exact Hds|split; [exact Hcb|]]. simpl. exact Hone.
      * intros other e Hne [<-|[]]. simpl.
        apply String.eqb_neq. congruence.
      * unfold shape in Hshape.
        destruct (mainPC st); try exact I;
          destruct Hshape as (_ & Hu & Ht);
          destruct Hcases as [-> | ->]; congruence.
    + unfold counted. simpl. rewrite !signals_cons. simpl.
      destruct Hcases as [-> | ->]; simpl; lia.
    + simpl. apply ordered_cons; [assumption| |discriminate].
      intros n [= <-]. exact Hacc.
  - (* log.Fatale(err), err != nil *)
    injection Hstep as <-. now apply StartInv_exit.
  - (* log.Fatale(nil) *)
    injection Hstep as <-. unfold setPC.
    split; [|split; [exact Hcount|exact Hord]].
    apply shape_update with (net := net) (new := []); try assumption.
    + split; [exact Hds|split; [exact Hcb|]]. simpl. exact Hpc.
    + intros other e' _ [].
    + now apply past_wait_trivial.
Qed.

Lemma step_inv (a : Action) (st st' : Sys) :
  StartInv st -> step a st = Some st' -> StartInv st'.
Proof.
  intros Hinv Hstep. unfold step in Hstep.
  destruct (exited st); [discriminate|].
  destruct a as [|i m|i].
  - exact (stepMain_inv _ _ Hinv Hstep).
  - exact (stepLib_inv _ _ _ _ Hinv Hstep).
  - exact (stepLoop_inv _ _ _ Hinv Hstep).
Qed.

Lemma exec_inv (sched : list Action) (st : Sys) :
  StartInv st -> StartInv (exec sched st).
Proof.
  revert st. induction sched as [|a sched IH]; intros st Hinv; [exact Hinv|].
  simpl. destruct (step a st) as [st'|] eqn:Hstep.
  - apply IH. exact (step_inv _ _ _ Hinv Hstep).
  - now apply IH.
Qed.

(** A server fresh from [New] has an untouched wait group. *)
Lemma New_wgStart (w : World) (c : Config) (p p' : Proc) (s : Server)
    (err : option error) :
  run (New w c) p = (p', Returned (Some s, err)) -> wgStart s = 0%Z.
Proof.
  intros H. explore H.
  all: inversion H; subst; clear H; reflexivity.
Qed.

Lemma loopOK_at_most_once (net : string) (g : Goroutine) (evs : list Event) :
  loopOK net g evs -> signals net evs <= 1.
Proof. intros (_ & _ & H). destruct (g_pc g); lia. Qed.

Lemma shape_at_most_once (st : Sys) :
  shape st ->
  signals "udp" (events st) <= 1 /\ signals "tcp" (events st) <= 1.
Proof.
  unfold shape, twoLoops. destruct (mainPC st).
  - intros (_ & -> & ->). lia.
  - intros (_ & -> & ->). lia.
  - intros (gu & _ & Hgu & ->). apply loopOK_at_most_once in Hgu. lia.
  - intros (gu & gt & _ & Hgu & Hgt).
    apply loopOK_at_most_once in Hgu, Hgt. lia.
  - intros (_ & -> & ->). lia.
  - intros (_ & -> & ->). lia.
  - intros [].
Qed.

(** C1. [Start] on a server that [New] has built, under any
    interleaving of the calling thread and the two serve loops: the
    barrier stands at two minus the signals received; each loop signals
    at most once, and only after its transport has been confirmed
    accepting; while a signal is missing the calling thread cannot get
    past [Wait], and it gets past it once both have arrived; [Start]
    has returned only if both loops have signalled before. *)
Theorem Start_waits_for_both_loops (w : World) (c : Config) (p p' : Proc)
    (s : Server) (sched : list Action) :
  run (New w c) p = (p', Returned (Some s, None)) ->
  let st := Start s sched in
  let udp := signals "udp" (events st) in
  let tcp := signals "tcp" (events st) in
  (mainPC st <> AtAdd ->
   wgStart (srv st) = (2 - Z.of_nat udp - Z.of_nat tcp)%Z)
  /\ udp <= 1 /\ tcp <= 1
  /\ (forall net l1 l2,
        events st = l1 ++ EvDone net :: l2 -> In (EvAccepting net) l2)
  /\ (mainPC st = AtWait -> exited st = None ->
      (step ActMain st = None <-> udp = 0 \/ tcp = 0))
  /\ (forall r l1 l2,
        events st = l1 ++ EvStartReturned r :: l2 ->
        In (EvDone "udp") l2 /\ In (EvDone "tcp") l2)
  /\ (forall r, mainPC st = StartReturned r -> udp = 1 /\ tcp = 1).
Proof.
  intros Hnew st udp tcp.
  assert (Hinv : StartInv st).
  { apply exec_inv, initSys_inv. exact (New_wgStart _ _ _ _ _ _ Hnew). }
  destruct Hinv as (Hshape & Hcount & Hd & Hr).
  destruct (shape_at_most_once _ Hshape) as [Hu Ht].
  fold udp in Hu. fold tcp in Ht.
  split; [|split; [exact Hu|split; [exact Ht|split; [exact Hd|split; [|split]]]]].
  - intros Hpc. unfold counted in Hcount. fold udp tcp in Hcount.
    rewrite Hcount. destruct (mainPC st); [contradiction|reflexivity..].
  - intros Hpc Hex. unfold step, stepMain. rewrite Hex, Hpc.
    unfold counted in Hcount. rewrite Hpc in Hcount. fold udp tcp in Hcount.
    destruct (Z.eqb_spec (wgStart (srv st)) 0) as [Hz|Hnz]; split.
    + discriminate.
    + intros Hmiss. exfalso. lia.
    + intros _. lia.
    + reflexivity.
  - exact Hr.
  - intros r Hpc. unfold shape in Hshape. rewrite Hpc in Hshape.
    destruct Hshape as (_ & Hu1 & Ht1). split; assumption.
Qed.

Lemma Start_waits_for_both_loops_witness :
  let st := Start Demo.server Demo.goodSchedule in
  mainPC st = StartReturned None
  /\ signals "udp" (events st) = 1 /\ signals "tcp" (events st) = 1.
Proof.
  split; [reflexivity|].
  eassert (Hnew : run (New (Demo.world false false) Demo.config) Demo.fresh
                  = (_, Returned (Some Demo.server, None)))
    by (vm_compute; reflexivity).
  exact (proj2 (proj2 (proj2 (proj2 (proj2 (proj2
           (Start_waits_for_both_loops _ _ _ _ Demo.server
              Demo.goodSchedule Hnew)))))) None eq_refl).
Defined.

(** A schedule on which the UDP loop fails to come up: the calling
    thread stays in [Wait] until the process exits. *)
Example Start_blocked_while_udp_missing :
  let st := Start Demo.server
              [ActMain; ActMain; ActMain; ActLib 1 LibAccepting; ActLoop 1;
               ActMain; ActMain] in
  mainPC st = AtWait /\ wgStart (srv st) = 1%Z
  /\ signals "udp" (events st) = 0 /\ signals "tcp" (events st) = 1.
Proof. repeat split. Qed.

(** ** The return value of [Start] *)

Lemma exec_returns_nil (sched : list Action) (st : Sys) :
  (forall r, mainPC st = StartReturned r -> r = None) ->
  forall r, mainPC (exec sched st) = StartReturned r -> r = None.
Proof.
  revert st. induction sched as [|a sched IH]; intros st Hst; [exact Hst|].
  simpl. destruct (step a st) as [st'|] eqn:Hstep; [|now apply IH].
  apply IH. intros r Hr. unfold step in Hstep.
  destruct (exited st); [discriminate|]. destruct a as [|i m|i].
  - unfold stepMain, runListener in Hstep. simpl in Hstep.
    destruct (mainPC st) eqn:Hpc; try discriminate Hstep.
    + injection Hstep as <-. discriminate Hr.
    + injection Hstep as <-. discriminate Hr.
    + injection Hstep as <-. discriminate Hr.
    + destruct (Z.eqb (wgStart (srv st)) 0); [|discriminate].
      injection Hstep as <-. discriminate Hr.
    + injection Hstep as <-. simpl in Hr. now injection Hr as <-.
  - unfold stepLib in Hstep.
    destruct (goroutines st !! i) as [g|]; [|discriminate].
    destruct (g_pc g), m; try discriminate Hstep;
      injection Hstep as <-; exact (Hst r Hr).
  - unfold stepLoop in Hstep.
    destruct (goroutines st !! i) as [g|]; [|discriminate].
    destruct (g_pc g) as [| | |[e|]|]; try discriminate Hstep.
    + destruct (ds_NotifyStartedFunc (g_ds g)) as [[]|].
      * destruct (Z.ltb (wgStart (srv st) - 1) 0);
          injection Hstep as <-; exact (Hst r Hr).
      * injection Hstep as <-. exact (Hst r Hr).
    + injection Hstep as <-. exact (Hst r Hr).
    + injection Hstep as <-. exact (Hst r Hr).
Qed.


Example Start_listener_failure_exits :
  let st := Start Demo.server
              [ActMain; ActMain; ActMain;
               ActLib 0 (LibReturn (Some "bad listeners")); ActLoop 0;
               ActMain; ActMain] in
  exited st = Some "bad listeners" /\ mainPC st = AtWait.
Proof. split; reflexivity. Qed.

(** * Further properties of the construction *)

Ltac same_bind :=
  match goal with
  | E : normalizeVanityIPs _ (normalizeCanonicalNameservers ?c) = inr ?c' |- _ =>
      let Hb := fresh "Hb" in
      destruct (normalized_ConfigDir _ _ _ E) as [_ Hb];
      rewrite Hb in *
  end.

(** X1. When [New] succeeds it has bound exactly two sockets, the TCP
    listener first and the UDP socket second, both on the address that
    [Bind] resolves to; the server holds the two sockets, the engine,
    and a router with the engine as the handler of the root pattern,
    and no serve loop exists yet. *)
Theorem New_success_state (w : World) (c : Config) (p p' : Proc)
    (s : Server) :
  run (New w c) p = (p', Returned (Some s, None)) ->
  exists ta l ua u e,
    net_ResolveTCPAddr w "tcp" (Bind c) = inr ta
    /\ net_ListenTCP w "tcp" ta = inr l
    /\ net_ResolveUDPAddr w "udp" (Bind c) = inr ua
    /\ net_ListenUDP w "udp" ua = inr u
    /\ sockets p' = UDPSocket u :: TCPSocket l :: sockets p
    /\ tcpListener s = Some l /\ udpConn s = Some u
    /\ engine s = Some e /\ mux s = Some [(".", e)]
    /\ udpServer s = None /\ tcpServer s = None.
Proof.
  intros H. explore H.
  all: same_bind.
  all: inversion H; subst; clear H; simpl.
  all: eexists _, _, _, _, _; repeat split; eassumption.
Qed.

Lemma New_success_state_witness :
  exists p' s,
    run (New (Demo.world false false) Demo.config) Demo.fresh
    = (p', Returned (Some s, None))
    /\ sockets p'
       = [UDPSocket (mkUDPConn ":53"); TCPSocket (mkTCPListener ":53")]
    /\ tcpListener s = Some (mkTCPListener ":53")
    /\ udpConn s = Some (mkUDPConn ":53").
Proof.
  eassert (Hrun : run (New (Demo.world false false) Demo.config) Demo.fresh
                  = (_, Returned (Some _, None))) by (vm_compute; reflexivity).
  destruct (New_success_state _ _ _ _ _ Hrun)
    as (ta & l & ua & u & e & Hta & Hl & Hua & Hu & Hs & Htl & Huc & _).
  eexists _, _. split; [exact Hrun|]. repeat split.
Defined.

(** X2. Whatever comes of the attempt, [New] has overwritten the
    package-level version string first, and it has removed nothing
    from the process: the files and sockets that were open are still
    open and the earlier calls are still in the log. *)
Theorem New_sets_version (w : World) (c : Config) (p p' : Proc)
    (r : Outcome NewResult) :
  run (New w c) p = (p', r) ->
  ncdnsVersion p'
  = buildinfo_VersionSummary w "github.com/namecoin/ncdns" "ncdns"
  /\ openFiles p `suffix_of` openFiles p'
  /\ sockets p `suffix_of` sockets p'
  /\ calls p `suffix_of` calls p'.
Proof.
  intros H. explore H.
  all: inversion H; subst; clear H; simpl.
  all: split; [reflexivity|].
  all: split; [|split].
  all: repeat first [reflexivity | apply suffix_cons_r].
Qed.

Lemma New_sets_version_witness :
  ncdnsVersion
    (fst (run (New (Demo.world false false)
                 (Demo.withLists Demo.config "" "not-an-ip")) Demo.fresh))
  = "ncdns (devel)".
Proof.
  exact (proj1 (New_sets_version (Demo.world false false)
                  (Demo.withLists Demo.config "" "not-an-ip") Demo.fresh
                  _ _ (surjective_pairing _))).
Defined.

(** Normalisation fills in the two unexported lists and changes
    nothing else. *)
Lemma normalized_raw_fields (P : string -> option IP) (c c' : Config) :
  normalizeVanityIPs P (normalizeCanonicalNameservers c) = inr c' ->
  c' = set_vanityIPs
         (set_canonicalNameservers c (canonicalNameservers c'))
         (vanityIPs c').
Proof.
  unfold normalizeVanityIPs, normalizeCanonicalNameservers.
  destruct c. simpl.
  repeat match goal with
         | |- context [if ?b then _ else _] => destruct b; simpl
         end.
  all: try (now intros [= <-]).
  all: destruct (vanityLoop _ _ _); try discriminate; now intros [= <-].
Qed.

(** X3. The server [New] hands back, with or without an error, holds
    the caller's configuration with every raw field as it was given,
    the two comma-separated strings included; the normalised lists are
    the only fields that differ.  Its naming-service connection
    carries the user name, password and address of the
    configuration, and a cookie retriever exactly when a cookie path
    is set. *)
Theorem New_keeps_raw_fields (w : World) (c : Config) (p p' : Proc)
    (s : Server) (err : option error) :
  run (New w c) p = (p', Returned (Some s, err)) ->
  cfg s = set_vanityIPs
            (set_canonicalNameservers c (canonicalNameservers (cfg s)))
            (vanityIPs (cfg s))
  /\ namecoin.Username (namecoinConn s) = NamecoinRPCUsername c
  /\ namecoin.Password (namecoinConn s) = NamecoinRPCPassword c
  /\ namecoin.Server (namecoinConn s) = NamecoinRPCAddress c
  /\ (namecoin.GetAuth (namecoinConn s) = None
      <-> NamecoinRPCCookiePath c = "").
Proof.
  intros H. split.
  - apply New_server_cfg in H. exact (normalized_raw_fields _ _ _ H).
  - explore H.
    all: inversion H; subst; clear H; simpl.
    all: repeat match goal with
           | E : String.eqb _ "" = false |- _ => apply String.eqb_neq in E
           | E : String.eqb _ "" = true |- _ => apply String.eqb_eq in E
           end.
    all: repeat split; intros; try reflexivity; try assumption;
      try congruence.
Qed.

Lemma New_keeps_raw_fields_witness :
  exists p' s,
    run (New (Demo.world false false)
           (Demo.withLists Demo.config "a.bit" "1.2.3.4")) Demo.fresh
    = (p', Returned (Some s, None))
    /\ CanonicalNameservers (cfg s) = "a.bit"
    /\ VanityIPs (cfg s) = "1.2.3.4".
Proof.
  eassert (Hrun : run (New (Demo.world false false)
                         (Demo.withLists Demo.config "a.bit" "1.2.3.4"))
                    Demo.fresh
                  = (_, Returned (Some _, None))) by (vm_compute; reflexivity).
  eexists _, _. split; [exact Hrun|].
  rewrite (proj1 (New_keeps_raw_fields _ _ _ _ _ _ Hrun)).
  split; reflexivity.
Defined.

(** X4. [loadKey] returns without an error exactly when both files
    open and parse: it then returns the record parsed from the
    public-key file together with the private key parsed from the
    other file, and it leaves both files open. *)
Theorem loadKey_success_iff (w : World) (s : Server) (fn privateFn : string)
    (p : Proc) :
  (forall p' ok opk,
     run (loadKey w s fn privateFn) p = (p', Returned (ok, opk, None)) ->
     exists k pk f pf,
       ok = Some k /\ opk = Some pk
       /\ os_Open w (cpath w (cfg s) fn) = inr f
       /\ dns_ReadRR w f (cpath w (cfg s) fn) = inr (Some (dns.RR_DNSKEY k))
       /\ os_Open w (cpath w (cfg s) privateFn) = inr pf
       /\ ReadPrivateKey w k pf (cpath w (cfg s) privateFn) = inr pk
       /\ openFiles p' = pf :: f :: openFiles p)
  /\ (forall k pk,
        KeyLoads w (cfg s) fn privateFn k pk ->
        exists p',
          run (loadKey w s fn privateFn) p
          = (p', Returned (Some k, Some pk, None))).
Proof.
  split.
  - intros p' ok opk H. explore H.
    all: inversion H; subst; clear H; simpl.
    all: eexists _, _, _, _; repeat split; eassumption.
  - intros k pk (f & pf & Ho & Hr & Hpo & Hpk).
    unfold_body; simpl. rewrite Ho. simpl. rewrite Hr. simpl.
    rewrite Hpo. simpl. rewrite Hpk. eexists. reflexivity.
Qed.

Lemma loadKey_success_iff_witness :
  exists p',
    run (loadKey (Demo.world false false) Demo.server "zsk.key"
           "zsk.private") Demo.fresh
    = (p', Returned (Some Demo.zskRecord, Some Demo.privText, None)).
Proof.
  apply (proj2 (loadKey_success_iff (Demo.world false false) Demo.server
                  "zsk.key" "zsk.private" Demo.fresh)).
  exists (mkFile "/etc/ncdns/zsk.key" Demo.zskText),
    (mkFile "/etc/ncdns/zsk.private" Demo.privText).
  repeat split.
Defined.

(** X5. [New] closes no file: after the attempt, however it ends, the
    open files are those that were open before together with every
    file an [os.Open] of the attempt has opened. *)
Theorem New_open_files_stay_open (w : World) (c : Config) (p p' : Proc)
    (r : Outcome NewResult) :
  calls p = [] ->
  run (New w c) p = (p', r) ->
  openFiles p' = openedBy w (calls p') ++ openFiles p.
Proof.
  intros Hlog H. explore H.
  all: simpl in Hlog; subst.
  all: inversion H; subst; clear H; simpl.
  all: repeat match goal with
         | E : os_Open _ _ = _ |- _ => rewrite E; clear E
         end.
  all: reflexivity.
Qed.

Lemma New_open_files_stay_open_witness :
  map fileName
    (openFiles
       (fst (run (New (Demo.world false false)
                    (Demo.withKeys Demo.config "address.key" "ksk.private"
                       "" "")) Demo.fresh)))
  = ["/etc/ncdns/address.key"].
Proof.
  rewrite (New_open_files_stay_open (Demo.world false false)
             (Demo.withKeys Demo.config "address.key" "ksk.private" "" "")
             Demo.fresh _ _ eq_refl (surjective_pairing _)).
  reflexivity.
Defined.



(** X7. Every engine configuration [New] passes to [madns.NewEngine]
    carries the version string and keeps the key invariant: a
    key-signing key comes with a zone-signing key, and each key that is
    present is the one parsed from the configured public-key file,
    paired with the private key parsed from the file that goes with
    it. *)
Theorem New_engine_keys (w : World) (c : Config) (p p' : Proc)
    (r : Outcome NewResult) (ecfg : EngineConfig) :
  run (New w c) p = (p', r) ->
  In (Call_madns_NewEngine ecfg) (calls p') ->
  ~ In (Call_madns_NewEngine ecfg) (calls p) ->
  ec_VersionString ecfg
  = buildinfo_VersionSummary w "github.com/namecoin/ncdns" "ncdns"
  /\ (KSK ecfg <> None -> ZSK ecfg <> None)
  /\ match KSK ecfg with
     | Some k => exists pk, KSKPrivate ecfg = Some pk
                   /\ KeyLoads w c (PublicKey c) (PrivateKeyPath c) k pk
     | None => KSKPrivate ecfg = None
     end
  /\ match ZSK ecfg with
     | Some k => exists pk, ZSKPrivate ecfg = Some pk
                   /\ KeyLoads w c (ZonePublicKey c) (ZonePrivateKey c) k pk
     | None => ZSKPrivate ecfg = None
     end.
Proof.
  intros H Hin Hnew. explore H.
  all: inversion H; subst; clear H; split_In Hin.
  all: try discriminate Hin.
  all: try (exfalso; apply Hnew; exact Hin).
  all: injection Hin as <-; simpl.
  all: match goal with
       | E : normalizeVanityIPs _ (normalizeCanonicalNameservers ?c) = inr ?c' |- _ =>
           let Hd := fresh "Hd" in
           destruct (normalized_ConfigDir _ _ _ E) as [Hd _];
           unfold KeyLoads, cpath in *; try rewrite Hd in *
       end.
  all: split; [reflexivity|].
  all: split; [congruence|].
  all: split;
    first [ reflexivity
          | eexists; split; [reflexivity|];
            eexists _, _; repeat split; eassumption ].
Qed.

Lemma New_engine_keys_witness :
  let ecfg := mkEngineConfig 1%N "ncdns (devel)" (Some Demo.kskRecord)
                (Some Demo.privText) (Some Demo.zskRecord)
                (Some Demo.privText) in
  exists p' r,
    run (New (Demo.world false false)
           (Demo.withKeys Demo.config "ksk.key" "ksk.private" "zsk.key"
              "zsk.private")) Demo.fresh = (p', r)
    /\ In (Call_madns_NewEngine ecfg) (calls p')
    /\ (KSK ecfg <> None -> ZSK ecfg <> None).
Proof.
  intros ecfg.
  eassert (Hrun : run (New (Demo.world false false)
                         (Demo.withKeys Demo.config "ksk.key" "ksk.private"
                            "zsk.key" "zsk.private")) Demo.fresh
                  = (_, _)) by (vm_compute; reflexivity).
  match type of Hrun with
  | _ = (?q, _) =>
      assert (Hin : In (Call_madns_NewEngine ecfg) (calls q))
        by (simpl; do 4 right; left; reflexivity)
  end.
  eexists _, _. split; [exact Hrun|]. split; [exact Hin|].
  exact (proj1 (proj2 (New_engine_keys _ _ _ _ _ ecfg Hrun Hin
                         (fun H : In _ [] => H)))).
Defined.

(** X8. When [New] returns an error, the server it returns with it is
    nil exactly when the attempt failed on a vanity IP, on a key file,
    or on the KSK/ZSK check, that is when the last thing [New] did
    outside the package was nothing at all or to open a key file.  An
    error of [backend.New], of [madns.NewEngine], of a resolve or a
    bind, or of [webStart] comes back together with the server built so
    far. *)
Theorem New_error_server_nil (w : World) (c : Config) (p p' : Proc)
    (s : option Server) (e : error) :
  calls p = [] ->
  run (New w c) p = (p', Returned (s, Some e)) ->
  (s = None <-> match calls p' with
                | [] | Call_os_Open _ :: _ => True
                | _ => False
                end).
Proof.
  intros Hlog H. explore H.
  all: simpl in Hlog; subst.
  all: inversion H; subst; clear H; simpl.
  all: split; intros Hx; first [exact I | reflexivity | discriminate Hx
                               | destruct Hx].
Qed.

Lemma New_error_server_nil_witness :
  exists p' s e,
    run (New (Demo.world true false) Demo.config) Demo.fresh
    = (p', Returned (s, Some e))
    /\ s <> None.
Proof.
  eassert (Hrun : run (New (Demo.world true false) Demo.config) Demo.fresh
                  = (_, Returned (_, Some _))) by (vm_compute; reflexivity).
  eexists _, _, _. split; [exact Hrun|].
  intros Hnil.
  exact (proj1 (New_error_server_nil _ _ Demo.fresh _ _ _ eq_refl Hrun) Hnil).
Defined.

(** X9. [New] starts the web frontend only when an HTTP listen
    address is configured, with that address, and only once both DNS
    sockets are bound. *)
Theorem New_webStart_last (w : World) (c : Config) (p p' : Proc)
    (r : Outcome NewResult) (addr : string) :
  run (New w c) p = (p', r) ->
  In (Call_webStart addr) (calls p') ->
  ~ In (Call_webStart addr) (calls p) ->
  addr = HTTPListenAddr c /\ addr <> ""
  /\ exists l u, sockets p' = UDPSocket u :: TCPSocket l :: sockets p.
Proof.
  intros H Hin Hnew. explore H.
  all: inversion H; subst; clear H; split_In Hin.
  all: try discriminate Hin.
  all: try (exfalso; apply Hnew; exact Hin).
  all: injection Hin as <-; simpl.
  all: repeat match goal with
         | E : String.eqb _ "" = false |- _ => apply String.eqb_neq in E
         end.
  all: split; [reflexivity|]; split; [assumption|]; eexists _, _; reflexivity.
Qed.

Lemma New_webStart_last_witness :
  exists p' r,
    run (New (Demo.world false false) (Demo.withHTTP Demo.config ":8080"))
      Demo.fresh = (p', r)
    /\ In (Call_webStart ":8080") (calls p')
    /\ exists l u, sockets p' = UDPSocket u :: TCPSocket l :: sockets Demo.fresh.
Proof.
  eassert (Hrun : run (New (Demo.world false false)
                         (Demo.withHTTP Demo.config ":8080")) Demo.fresh
                  = (_, _)) by (vm_compute; reflexivity).
  eexists _, _. split; [exact Hrun|].
  split; [left; reflexivity|].
  exact (proj2 (proj2 (New_webStart_last _ _ _ _ _ ":8080" Hrun
                         (or_introl eq_refl) (fun H : In _ [] => H)))).
Defined.

(** * Further properties of the normalisation *)

Lemma Split_length (s : string) (sep : ascii) :
  length (strings.Split s sep) = S (CountByte s sep).
Proof.
  induction s as [|ch rest IH]; [reflexivity|].
  simpl. destruct (Ascii.eqb ch sep).
  - simpl. now rewrite IH.
  - pose proof (Split_nonempty rest sep) as Hne.
    destruct (strings.Split rest sep) as [|t ts]; [contradiction|].
    simpl in *. exact IH.
Qed.

(** X10. A non-empty [CanonicalNameservers] string gives one name per
    comma-separated piece, one more than there are commas: no piece is
    dropped, every name ends in a dot, and a piece that is empty (two
    commas in a row, a leading or a trailing comma) becomes the root
    name ".". *)
Theorem canonical_nameservers_entries (c : Config) :
  CanonicalNameservers c <> "" ->
  let ns := canonicalNameservers (normalizeCanonicalNameservers c) in
  length ns = S (CountByte (CanonicalNameservers c) ","%char)
  /\ Forall (fun n => strings.HasDotSuffix n = true) ns
  /\ forall i,
       strings.Split (CanonicalNameservers c) ","%char !! i = Some "" ->
       ns !! i = Some ".".
Proof.
  intros Hne ns. apply String.eqb_neq in Hne.
  assert (Hns : ns = dns.Fqdn <$> strings.Split (CanonicalNameservers c) ","%char).
  { unfold ns, normalizeCanonicalNameservers. rewrite Hne. simpl.
    apply fqdnLoop_map. }
  rewrite Hns. split; [|split].
  - rewrite length_fmap. apply Split_length.
  - apply Forall_fmap, Forall_forall. intros n _. apply Fqdn_qualified.
  - intros i Hi. rewrite list_lookup_fmap, Hi. reflexivity.
Qed.

Lemma canonical_nameservers_entries_witness :
  canonicalNameservers
    (normalizeCanonicalNameservers
       (Demo.withLists Demo.config "a.bit,,b.bit.," ""))
  !! 3 = Some ".".
Proof.
  apply (proj2 (proj2 (canonical_nameservers_entries
                         (Demo.withLists Demo.config "a.bit,,b.bit.," "")
                         ltac:(discriminate)))).
  reflexivity.
Defined.

(** X11. A [VanityIPs] string with a piece that does not parse makes
    [New] fail before it does anything outside the package: it returns
    a nil server and an error, and it has made no call, opened no file
    and bound no socket.  This is so whatever the piece is, an empty
    one (as after a trailing comma) included. *)
Theorem vanity_ips_rejected_early (w : World) (c : Config) (p : Proc)
    (tok : string) :
  VanityIPs c <> "" ->
  In tok (strings.Split (VanityIPs c) ","%char) ->
  net_ParseIP w tok = None ->
  exists p' e,
    run (New w c) p = (p', Returned (None, Some e))
    /\ calls p' = calls p /\ openFiles p' = openFiles p
    /\ sockets p' = sockets p.
Proof.
  intros Hne Hin Hbad. apply String.eqb_neq in Hne.
  destruct (vanityLoop_spec (net_ParseIP w)
              (strings.Split (VanityIPs c) ","%char) (vanityIPs c))
    as [(ips & Hall & _)|(pre & bad & post & ips & _ & _ & _ & Hrun)].
  { exfalso. exact (Forall2_parsesTo_In _ _ _ _ Hall Hin Hbad). }
  pose proof (normalizeVanityIPs_after_ns (net_ParseIP w) c) as Hns.
  unfold normalizeVanityIPs at 1 in Hns. rewrite Hne, Hrun in Hns.
  destruct (New_vanity_error w c _ p Hns) as (p' & Hr & Hs & Hc & Hf).
  exists p'. eexists. repeat split; eassumption.
Qed.

Lemma vanity_ips_rejected_early_witness :
  exists p' e,
    run (New (Demo.world false false)
           (Demo.withLists Demo.config "" "1.2.3.4,")) Demo.fresh
    = (p', Returned (None, Some e))
    /\ calls p' = [] /\ openFiles p' = [] /\ sockets p' = [].
Proof.
  refine (vanity_ips_rejected_early (Demo.world false false)
            (Demo.withLists Demo.config "" "1.2.3.4,") Demo.fresh "" _ _ _).
  - discriminate.
  - right. left. reflexivity.
  - reflexivity.
Defined.

(** * Further properties of the start-up *)

(** A goroutine exists only once the calling thread has passed the
    [Add]. *)
Lemma shape_spawned (st : Sys) (i : nat) (g : Goroutine) :
  shape st -> goroutines st !! i = Some g -> mainPC st <> AtAdd.
Proof.
  unfold shape. intros Hs Hi Hpc. rewrite Hpc in Hs.
  destruct Hs as (Hg & _). now rewrite Hg in Hi.
Qed.

Lemma step_exitCause (a : Action) (st st' : Sys) :
  StartInv st -> step a st = Some st' -> exitCause st'.
Proof.
  intros (Hshape & Hcount & Hord) Hstep. unfold step in Hstep.
  destruct (exited st) eqn:Hex; [discriminate|].
  unfold exitCause. destruct a as [|i m|i].
  - unfold stepMain, runListener in Hstep. simpl in Hstep.
    destruct (mainPC st); try discriminate Hstep.
    4:{ destruct (Z.eqb (wgStart (srv st)) 0); [|discriminate].
        injection Hstep as <-. simpl. now rewrite Hex. }
    all: injection Hstep as <-; simpl; now rewrite Hex.
  - unfold stepLib in Hstep.
    destruct (goroutines st !! i) as [g|]; [|discriminate].
    destruct (g_pc g), m; try discriminate Hstep;
      injection Hstep as <-; simpl; now rewrite Hex.
  - unfold stepLoop in Hstep.
    destruct (goroutines st !! i) as [g|] eqn:Hi; [|discriminate].
    destruct (shape_lookup_net _ _ _ Hshape Hi)
      as (net & Hnet & Hcases & Hlt & Hds & Hcb & Hpc).
    pose proof (shape_spawned _ _ _ Hshape Hi) as Hadd.
    destruct (shape_at_most_once _ Hshape) as [Hu Ht].
    unfold counted in Hcount.
    destruct (g_pc g) as [| | |[e|]|] eqn:Hg; try discriminate Hstep.
    + rewrite Hcb in Hstep.
      destruct (Z.ltb_spec (wgStart (srv st) - 1) 0) as [Hneg|Hpos].
      * exfalso. destruct Hpc as [Hzero _].
        destruct (mainPC st); [contradiction|..];
          destruct Hcases as [-> | ->]; lia.
      * injection Hstep as <-. simpl. now rewrite Hex.
    + injection Hstep as <-. simpl. exists i, g. now split.
    + injection Hstep as <-. simpl. now rewrite Hex.
Qed.

Lemma exec_exitCause (sched : list Action) (st : Sys) :
  StartInv st -> exitCause st -> exitCause (exec sched st).
Proof.
  revert st. induction sched as [|a sched IH]; intros st Hinv Hc; [exact Hc|].
  simpl. destruct (step a st) as [st'|] eqn:Hstep.
  - apply IH.
    + exact (step_inv _ _ _ Hinv Hstep).
    + exact (step_exitCause _ _ _ Hinv Hstep).
  - now apply IH.
Qed.

(** X12. [Start] on a server that [New] has built, under any
    interleaving: if the process has exited, then with the error that
    some serve loop's [ActivateAndServe] returned, never by a panic;
    the [panic("unreachable")] of [runListener] is not reached, and
    the barrier stays between zero and two, so that [Done] never finds
    it at zero. *)
Theorem Start_exits_only_on_loop_error (w : World) (c : Config)
    (p p' : Proc) (s : Server) (sched : list Action) :
  run (New w c) p = (p', Returned (Some s, None)) ->
  let st := Start s sched in
  match exited st with
  | None => True
  | Some e =>
      exists i g, goroutines st !! i = Some g /\ g_pc g = AtFatale (Some e)
  end
  /\ mainPC st <> StartPanicked
  /\ (0 <= wgStart (srv st) <= 2)%Z.
Proof.
  intros Hnew st.
  assert (Hinit : StartInv (initSys s)).
  { apply initSys_inv. exact (New_wgStart _ _ _ _ _ _ Hnew). }
  assert (Hinv : StartInv st) by now apply exec_inv.
  split; [|split].
  - apply (exec_exitCause sched (initSys s) Hinit). exact I.
  - destruct Hinv as (Hshape & _). unfold shape in Hshape.
    intros Hpc. now rewrite Hpc in Hshape.
  - destruct Hinv as (Hshape & Hcount & _).
    destruct (shape_at_most_once _ Hshape) as [Hu Ht].
    unfold counted in Hcount. unfold shape in Hshape.
    destruct (mainPC st); lia.
Qed.

Lemma Start_exits_only_on_loop_error_witness :
  let st := Start Demo.server
              [ActMain; ActMain; ActMain;
               ActLib 1 (LibReturn (Some "bad listeners")); ActLoop 1] in
  exists i g, goroutines st !! i = Some g
              /\ g_pc g = AtFatale (Some "bad listeners").
Proof.
  eassert (Hnew : run (New (Demo.world false false) Demo.config) Demo.fresh
                  = (_, Returned (Some Demo.server, None)))
    by (vm_compute; reflexivity).
  exact (proj1 (Start_exits_only_on_loop_error _ _ _ _ Demo.server
                  [ActMain; ActMain; ActMain;
                   ActLib 1 (LibReturn (Some "bad listeners")); ActLoop 1]
                  Hnew)).
Defined.

(** The [dns.Server] of a goroutine does not change while it runs. *)
Lemma fmap_g_ds_insert (gs : list Goroutine) (i : nat) (g : Goroutine)
    (pc : LoopPC) :
  gs !! i = Some g ->
  g_ds <$> <[i := mkGoroutine (g_ds g) pc]> gs = g_ds <$> gs.
Proof.
  intros Hi. rewrite list_fmap_insert. simpl.
  apply list_insert_id. now rewrite list_lookup_fmap, Hi.
Qed.

Lemma wired_goroutines (s : Server) (st : Sys) (srv' : Server)
    (gs : list Goroutine) (ex : option error) (evs : list Event) :
  wired s st ->
  cfg srv' = cfg (srv st) -> mux srv' = mux (srv st) ->
  tcpListener srv' = tcpListener (srv st) ->
  udpConn srv' = udpConn (srv st) ->
  udpServer srv' = udpServer (srv st) ->
  tcpServer srv' = tcpServer (srv st) ->
  g_ds <$> gs = g_ds <$> goroutines st ->
  wired s (mkSys srv' (mainPC st) gs ex (infoLog st) evs).
Proof.
  unfold wired. simpl.
  intros (Hc & Hm & Ht & Hu & Hpc) -> -> -> -> -> -> ->.
  repeat split; assumption.
Qed.

Lemma step_wired (s : Server) (a : Action) (st st' : Sys) :
  wired s st -> step a st = Some st' -> wired s st'.
Proof.
  intros Hw Hstep. unfold step in Hstep.
  destruct (exited st); [discriminate|]. destruct a as [|i m|i].
  - unfold stepMain, runListener in Hstep. simpl in Hstep.
    destruct Hw as (Hc & Hm & Ht & Hu & Hpc).
    destruct (mainPC st) eqn:Hmain; try discriminate Hstep.
    + injection Hstep as <-. unfold wired. simpl. repeat split; tauto.
    + injection Hstep as <-. unfold wired. simpl.
      destruct Hpc as (Hg & Hus & Hts). rewrite fmap_app, Hg. simpl.
      unfold udpDs. rewrite Hc, Hm, Hu. repeat split; assumption.
    + injection Hstep as <-. unfold wired. simpl.
      destruct Hpc as (Hg & Hus & Hts). rewrite fmap_app, Hg. simpl.
      unfold tcpDs. rewrite Hc, Hm, Ht. repeat split; assumption.
    + destruct (Z.eqb (wgStart (srv st)) 0); [|discriminate].
      injection Hstep as <-. unfold wired. simpl. repeat split; tauto.
    + injection Hstep as <-. unfold wired. simpl. repeat split; tauto.
  - unfold stepLib in Hstep.
    destruct (goroutines st !! i) as [g|] eqn:Hi; [|discriminate].
    destruct (g_pc g), m; try discriminate Hstep;
      injection Hstep as <-; unfold setPC;
      apply wired_goroutines; try reflexivity; try assumption;
      now apply fmap_g_ds_insert.
  - unfold stepLoop in Hstep.
    destruct (goroutines st !! i) as [g|] eqn:Hi; [|discriminate].
    destruct (g_pc g) as [| | |[e|]|]; try discriminate Hstep.
    + destruct (ds_NotifyStartedFunc (g_ds g)) as [[]|].
      * destruct (Z.ltb (wgStart (srv st) - 1) 0); injection Hstep as <-.
        -- apply wired_goroutines; try reflexivity; assumption.
        -- unfold setPC. simpl.
           apply wired_goroutines; try reflexivity; try assumption.
           now apply fmap_g_ds_insert.
      * injection Hstep as <-. unfold setPC.
        apply wired_goroutines; try reflexivity; try assumption.
        now apply fmap_g_ds_insert.
    + injection Hstep as <-.
      apply wired_goroutines; try reflexivity; assumption.
    + injection Hstep as <-. unfold setPC.
      apply wired_goroutines; try reflexivity; try assumption.
      now apply fmap_g_ds_insert.
Qed.

Lemma exec_wired (s : Server) (sched : list Action) (st : Sys) :
  wired s st -> wired s (exec sched st).
Proof.
  revert st. induction sched as [|a sched IH]; intros st Hw; [exact Hw|].
  simpl. destruct (step a st) as [st'|] eqn:Hstep.
  - apply IH. exact (step_wired _ _ _ _ Hw Hstep).
  - now apply IH.
Qed.

(** X13. Whatever the server and the schedule, [Start] spawns at most
    two goroutines, the UDP loop first and the TCP loop second; the
    UDP loop serves the packet socket of the server and no listener,
    the TCP loop the listener and no packet socket, both under the
    bind address and the router of the server and with the
    [wgStart.Done] callback; the server records the two [dns.Server]
    values, and its sockets, router and configuration stay as they
    were. *)
Theorem Start_wires_listeners (s : Server) (sched : list Action) :
  wired s (Start s sched).
Proof.
  unfold Start. apply exec_wired.
  unfold wired, initSys. simpl. tauto.
Qed.

Example Start_wires_listeners_demo :
  g_ds <$> goroutines (Start Demo.server Demo.goodSchedule)
  = [ mkDnsServer ":53" "udp" (Some [(".", 1%N)]) (Some wgStartDone) None
        (Some (mkUDPConn ":53"));
      mkDnsServer ":53" "tcp" (Some [(".", 1%N)]) (Some wgStartDone)
        (Some (mkTCPListener ":53")) None ].
Proof. reflexivity. Qed.

(** A loop that is still inside [ActivateAndServe] has signalled if
    and only if it serves. *)
Lemma loopOK_running (net : string) (g : Goroutine) (evs : list Event) :
  loopOK net g evs -> running (g_pc g) = true ->
  (g_pc g = Activating /\ signals net evs = 0)
  \/ (g_pc g = Notifying /\ signals net evs = 0)
  \/ (g_pc g = Serving /\ signals net evs = 1).
Proof.
  intros (_ & _ & Hpc) Hrun. destruct (g_pc g); try discriminate Hrun.
  - now left.
  - right. left. now destruct Hpc.
  - right. right. now split.
Qed.

Ltac concrete_loop g Hg Hrun :=
  let Hds := fresh "Hds" in
  let Hcb := fresh "Hcb" in
  let Hpc := fresh "Hpc" in
  let Hsig := fresh "Hsig" in
  pose proof Hg as (Hds & Hcb & _);
  destruct (loopOK_running _ _ _ Hg Hrun)
    as [[Hpc Hsig]|[[Hpc Hsig]|[Hpc Hsig]]];
  destruct g as [[? ? ? ? ? ?] ?]; simpl in Hds, Hcb, Hpc; subst.

Ltac use_signals :=
  repeat match goal with
         | H : signals _ _ = _ |- _ => rewrite ?H in *; clear H
         end.

(** X14. [Start] on a server that [New] has built can always be
    completed: from whatever point an interleaving has led to, as long
    as the process has not exited and no serve loop's
    [ActivateAndServe] has returned, letting the calling thread go on
    and both transports come up makes [Start] return nil. *)
Theorem Start_can_complete (w : World) (c : Config) (p p' : Proc)
    (s : Server) (sched : list Action) :
  run (New w c) p = (p', Returned (Some s, None)) ->
  let st := Start s sched in
  exited st = None ->
  (forall i g, goroutines st !! i = Some g -> running (g_pc g) = true) ->
  mainPC (exec completion st) = StartReturned None.
Proof.
  intros Hnew st Hex Hrun.
  assert (Hinv : StartInv st).
  { apply exec_inv, initSys_inv. exact (New_wgStart _ _ _ _ _ _ Hnew). }
  assert (Hnil : forall r, mainPC st = StartReturned r -> r = None).
  { apply exec_returns_nil. intros r Hr. discriminate Hr. }
  clearbody st. clear Hnew.
  destruct Hinv as (Hshape & Hcount & _).
  unfold shape, twoLoops, counted in *.
  destruct st as [sv pc gs ex il evs]. simpl in Hex, Hrun, Hshape, Hcount, Hnil.
  subst ex. destruct sv as [cf en nc mx us uc ts tl wg]. simpl in Hcount.
  subst wg. destruct pc.
  - destruct Hshape as (-> & Hu & Ht). use_signals. reflexivity.
  - destruct Hshape as (-> & Hu & Ht). use_signals. reflexivity.
  - destruct Hshape as (gu & -> & Hgu & Ht).
    pose proof (Hrun 0 gu eq_refl) as Hru.
    concrete_loop gu Hgu Hru; use_signals; reflexivity.
  - destruct Hshape as (gu & gt & -> & Hgu & Hgt).
    pose proof (Hrun 0 gu eq_refl) as Hru.
    pose proof (Hrun 1 gt eq_refl) as Hrt.
    concrete_loop gu Hgu Hru; concrete_loop gt Hgt Hrt; use_signals;
      reflexivity.
  - destruct Hshape as ((gu & gt & -> & Hgu & Hgt) & Hu & Ht).
    pose proof (Hrun 0 gu eq_refl) as Hru.
    pose proof (Hrun 1 gt eq_refl) as Hrt.
    concrete_loop gu Hgu Hru; concrete_loop gt Hgt Hrt; try congruence;
      use_signals; reflexivity.
  - destruct Hshape as ((gu & gt & -> & Hgu & Hgt) & Hu & Ht).
    rewrite (Hnil err eq_refl).
    pose proof (Hrun 0 gu eq_refl) as Hru.
    pose proof (Hrun 1 gt eq_refl) as Hrt.
    concrete_loop gu Hgu Hru; concrete_loop gt Hgt Hrt; try congruence;
      use_signals; reflexivity.
  - destruct Hshape.
Qed.

Lemma Start_can_complete_witness :
  mainPC
    (exec completion
       (Start Demo.server [ActMain; ActMain; ActLib 0 LibAccepting]))
  = StartReturned None.
Proof.
  eassert (Hnew : run (New (Demo.world false false) Demo.config) Demo.fresh
                  = (_, Returned (Some Demo.server, None)))
    by (vm_compute; reflexivity).
  refine (Start_can_complete _ _ _ _ Demo.server
            [ActMain; ActMain; ActLib 0 LibAccepting] Hnew eq_refl _).
  intros [|[|i]] g Hg; try discriminate Hg.
  injection Hg as <-. reflexivity.
Defined.

(** X15. A serve loop whose [ActivateAndServe] returns an error takes
    the process down, before or after [Start] has returned: the loop
    goes on to [log.Fatale], the process exits with that error, and the
    calling thread and the server are left where they were. *)
Theorem serve_loop_failure_is_fatal (st : Sys) (i : nat) (g : Goroutine)
    (e : error) :
  exited st = None ->
  goroutines st !! i = Some g ->
  g_pc g = Activating \/ g_pc g = Serving ->
  let st' := exec [ActLib i (LibReturn (Some e)); ActLoop i] st in
  exited st' = Some e /\ mainPC st' = mainPC st /\ srv st' = srv st.
Proof.
  intros Hex Hi Hpc st'. subst st'.
  assert (Hlt : i < length (goroutines st)) by exact (lookup_lt_Some _ _ _ Hi).
  assert (H1 : step (ActLib i (LibReturn (Some e))) st
               = Some (setPC st i g (AtFatale (Some e)) [])).
  { unfold step, stepLib. rewrite Hex, Hi.
    destruct Hpc as [-> | ->]; reflexivity. }
  eassert (H2 : step (ActLoop i) (setPC st i g (AtFatale (Some e)) [])
                = Some _).
  { unfold step, stepLoop, setPC. simpl.
    rewrite Hex, (list_lookup_insert_eq _ _ _ Hlt). simpl. reflexivity. }
  cbn [exec]. rewrite H1, H2. simpl. repeat split.
Qed.

Lemma serve_loop_failure_is_fatal_witness :
  let st := exec [ActLib 1 (LibReturn (Some "use of closed network connection"));
                  ActLoop 1]
              (Start Demo.server Demo.goodSchedule) in
  exited st = Some "use of closed network connection"
  /\ mainPC st = StartReturned None.
Proof.
  destruct (serve_loop_failure_is_fatal
              (Start Demo.server Demo.goodSchedule) 1
              (mkGoroutine (tcpDs Demo.server) Serving)
              "use of closed network connection" eq_refl eq_refl
              (or_intror eq_refl)) as (Hex & Hpc & _).
  split; [exact Hex|exact Hpc].
Defined.

(** * The course of a construction attempt *)

(** X16. [New] goes through its collaborators in one fixed order and
    calls each at most once: [backend.New] first, then the key files
    (at most four), then [madns.NewEngine], the TCP resolve and bind,
    the UDP resolve and bind, and [webStart] last.  Whatever [New]
    calls at all, it has called [backend.New] before. *)
Theorem New_call_order (w : World) (c : Config) (p p' : Proc)
    (r : Outcome NewResult) :
  calls p = [] ->
  run (New w c) p = (p', r) ->
  inOrder (calls p') = true
  /\ length (List.filter isOpenCall (calls p')) <= 4
  /\ (calls p' <> [] ->
      exists bc, last (calls p') = Some (Call_backend_New bc)).
Proof.
  intros Hlog H. explore H.
  all: simpl in Hlog; subst.
  all: inversion H; subst; clear H.
  all: split; [reflexivity|split; [simpl; lia|]].
  all: intros Hne; first [now destruct Hne | eexists; reflexivity].
Qed.

Lemma New_call_order_witness :
  let p' := fst (run (New (Demo.world false false)
                        (Demo.withKeys Demo.config "ksk.key" "ksk.private"
                           "zsk.key" "zsk.private")) Demo.fresh) in
  map stage (calls p') = [6; 5; 4; 3; 2; 1; 1; 1; 1; 0]
  /\ inOrder (calls p') = true.
Proof.
  eassert (Hrun : run (New (Demo.world false false)
                         (Demo.withKeys Demo.config "ksk.key" "ksk.private"
                            "zsk.key" "zsk.private")) Demo.fresh
                  = (_, _)) by (vm_compute; reflexivity).
  cbv zeta. rewrite Hrun. split; [reflexivity|].
  exact (proj1 (New_call_order _ _ Demo.fresh _ _ eq_refl Hrun)).
Defined.

(** X17. An error with which the public-key file of the KSK fails to
    yield a DNSKEY record (it cannot be opened, does not parse, or
    holds another record) is the error [New] returns, with a nil
    server, once the vanity IPs have parsed and [backend.New] has
    accepted the configuration; the same holds for the ZSK when no KSK
    is configured.  No engine has been built and no socket bound. *)
Theorem New_returns_key_error (w : World) (c : Config) (p : Proc)
    (pub : string) (e : error) :
  ReachesKeySetup w c ->
  (pub = PublicKey c \/ (PublicKey c = "" /\ pub = ZonePublicKey c)) ->
  pub <> "" ->
  PublicKeyFailure w (cpath w c pub) e ->
  exists p',
    run (New w c) p = (p', Returned (None, Some e))
    /\ sockets p' = sockets p
    /\ forall call, In call (calls p') ->
                    isEngineCall call = true \/ isNetCall call = true ->
                    In call (calls p).
Proof.
  intros (c' & b & Hv & Hb) Hpub Hne Hfail.
  apply String.eqb_neq in Hne.
  destruct (normalized_ConfigDir _ _ _ Hv) as [Hd _].
  unfold cpath in Hfail. rewrite <- Hd in Hfail.
  destruct (run (New w c) p) as [p' r] eqn:H. exists p'.
  unfold_fn H. unfold cpath in H. unfold_fn Hb.
  assert (Hfin : forall v fs socks cs cs',
            (forall call, In call cs' ->
             isEngineCall call = true \/ isNetCall call = true ->
             In call cs) ->
            (mkProc v fs socks cs', @Returned NewResult (None, Some e))
            = (p', r) ->
            (p', r) = (p', Returned (None, Some e))
            /\ sockets p' = socks
            /\ forall call, In call (calls p') ->
                 isEngineCall call = true \/ isNetCall call = true ->
                 In call cs).
  { intros v fs socks cs cs' Hcs [= <- <-]. simpl. auto. }
  destruct p as [v fs socks cs]. simpl.
  destruct (String.eqb (NamecoinRPCCookiePath c) "") eqn:Hcookie;
    unfold_fn H; unfold_fn Hb; rewrite Hv in H; unfold_fn H;
    rewrite Hb in H; unfold_fn H;
    (destruct Hpub as [-> |[Hk ->]];
     [|apply String.eqb_eq in Hk; rewrite Hk in H; unfold_fn H]);
    rewrite Hne in H; unfold_fn H;
    (destruct Hfail as [e' Ho|f e' Ho Hr|f rr Ho Hr Hnk];
     rewrite Ho in H; unfold_fn H;
     try (rewrite Hr in H; unfold_fn H);
     try (destruct rr as [[k|t txt]|]; [now destruct (Hnk k)|..];
          unfold_fn H));
    (eapply Hfin; [|exact H]);
    intros call Hin [Hc|Hc]; split_In Hin; subst; try discriminate Hc;
    exact Hin.
Qed.

Lemma New_returns_key_error_witness :
  exists p',
    run (New (Demo.world false false)
           (Demo.withKeys Demo.config "" "" "address.key" "zsk.private"))
      Demo.fresh
    = (p', Returned
             (None,
              Some "Loaded record from key file, but it wasn't a DNSKEY"))
    /\ sockets p' = [].
Proof.
  destruct (New_returns_key_error (Demo.world false false)
              (Demo.withKeys Demo.config "" "" "address.key" "zsk.private")
              Demo.fresh "address.key"
              "Loaded record from key file, but it wasn't a DNSKEY")
    as (p' & Hrun & Hs & _).
  - eexists _, _. split; reflexivity.
  - right. split; reflexivity.
  - discriminate.
  - eapply PKF_not_a_key; [reflexivity|reflexivity|discriminate].
  - exists p'. split; assumption.
Defined.

(** * From construction to serving *)

(** X18. Construction and start-up together: when [Start] has returned
    on a server that [New] has built, there are exactly two serve
    loops, they serve the two sockets [New] has bound (the UDP loop the
    packet socket, the TCP loop the listener), both dispatch into the
    router whose only handler is the engine, and the transport of each
    has been confirmed accepting. *)
Theorem constructed_server_serves_its_sockets (w : World) (c : Config)
    (p p' : Proc) (s : Server) (sched : list Action) (r : option error) :
  run (New w c) p = (p', Returned (Some s, None)) ->
  mainPC (Start s sched) = StartReturned r ->
  exists l u e gu gt,
    sockets p' = UDPSocket u :: TCPSocket l :: sockets p
    /\ goroutines (Start s sched) = [gu; gt]
    /\ ds_Net (g_ds gu) = "udp" /\ ds_PacketConn (g_ds gu) = Some u
    /\ ds_Listener (g_ds gu) = None
    /\ ds_Net (g_ds gt) = "tcp" /\ ds_Listener (g_ds gt) = Some l
    /\ ds_PacketConn (g_ds gt) = None
    /\ ds_Handler (g_ds gu) = Some [(".", e)]
    /\ ds_Handler (g_ds gt) = Some [(".", e)]
    /\ In (EvAccepting "udp") (events (Start s sched))
    /\ In (EvAccepting "tcp") (events (Start s sched)).
Proof.
  intros Hnew Hret.
  assert (Hinv : StartInv (Start s sched)).
  { apply exec_inv, initSys_inv. exact (New_wgStart _ _ _ _ _ _ Hnew). }
  assert (Hw : wired s (Start s sched)).
  { apply exec_wired. unfold wired, initSys. simpl. tauto. }
  assert (Hs : exists l u e,
             sockets p' = UDPSocket u :: TCPSocket l :: sockets p
             /\ tcpListener s = Some l /\ udpConn s = Some u
             /\ mux s = Some [(".", e)]).
  { clear Hinv Hw Hret. explore Hnew.
    all: inversion Hnew; subst; clear Hnew; simpl.
    all: eexists _, _, _; repeat split. }
  destruct Hs as (l & u & e & Hsock & Htl & Huc & Hmux).
  destruct Hinv as (Hshape & _ & Hord & _).
  unfold shape in Hshape. rewrite Hret in Hshape.
  destruct Hshape as ((gu & gt & Hg & _ & _) & Hu & Ht).
  destruct Hw as (_ & _ & _ & _ & Hw). rewrite Hret in Hw.
  destruct Hw as (Hds & _ & _). rewrite Hg in Hds.
  injection Hds as Hgu Hgt.
  assert (Hacc : forall net, signals net (events (Start s sched)) = 1 ->
                             In (EvAccepting net) (events (Start s sched))).
  { intros net Hn.
    assert (Hin : In (EvDone net) (events (Start s sched)))
      by (apply signals_In; lia).
    apply in_split in Hin. destruct Hin as (l1 & l2 & Heq).
    rewrite Heq. apply in_or_app. right. right. exact (Hord _ _ _ Heq). }
  exists l, u, e, gu, gt. rewrite Hgu, Hgt. unfold udpDs, tcpDs. simpl.
  rewrite Htl, Huc, Hmux. repeat split; auto.
Qed.

Lemma constructed_server_serves_its_sockets_witness :
  exists gu gt,
    goroutines (Start Demo.server Demo.goodSchedule) = [gu; gt]
    /\ ds_PacketConn (g_ds gu) = Some (mkUDPConn ":53")
    /\ ds_Listener (g_ds gt) = Some (mkTCPListener ":53").
Proof.
  eassert (Hnew : run (New (Demo.world false false) Demo.config) Demo.fresh
                  = (_, Returned (Some Demo.server, None)))
    by (vm_compute; reflexivity).
  destruct (constructed_server_serves_its_sockets _ _ _ _ Demo.server
              Demo.goodSchedule None Hnew eq_refl)
    as (l & u & e & gu & gt & Hs & Hg & _ & Hu & _ & _ & Hl & _).
  injection Hs as <- <-.
  exists gu, gt. repeat split; assumption.
Defined.
